(** * dynamorse-test: the flow test harness of [testUtil.js]

    A shallow embedding of the helpers exported by [src/testUtil.js] (and of
    the older copy of the same module, [src/unnamed/part_000]):

    - [adminApiReq], the request helper of the admin HTTP API;
    - [postFlow] with its inner [deleteFlow] and [checkCompleted], the
      life cycle of one test run, as a transition system over the events of
      the Node.js event loop (HTTP outcomes, websocket connections and
      messages, interval ticks);
    - [checkGrain], the assertions on a received grain;
    - [download], [rimraf] and [delTmp], the staging-directory utilities,
      over a finite map from paths to directory entries.

    Callbacks are defunctionalised ([kont]) so that an outstanding request
    can be stored in the run state; assertions of the [tape] object [t] are
    recorded in a log; an exception that a listener of the run throws
    comes with the state of the run at that point. *)

From Stdlib Require Import ZArith Lia.
From stdpp Require Import base strings list gmap pretty.

Open Scope Z_scope.

#[local] Set Warnings "-register-all".

(** ** How JavaScript code completes: with a value, or by throwing *)

Inductive completion (E A : Type) : Type :=
| Ok (a : A)
| Throw (e : E).
Arguments Ok {E A} a.
Arguments Throw {E A} e.

#[global] Instance result_ret {E} : MRet (completion E) := λ A a, Ok a.
#[global] Instance result_bind {E} : MBind (completion E) := λ A B f r,
  match r with
  | Ok a => f a
  | Throw e => Throw e
  end.

(** An exception is told by its name ([TypeError], [SyntaxError]), and an
    error of the file system by its code. *)
Abbreviation result := (completion string).

(** ** JavaScript values, as [JSON.parse] produces them *)

Module JS.

(** Numbers are the integers: status codes, counts and sizes, the only
    numbers the harness inspects, are integral, and far below 2^53, up to
    which a number holds every integer.  An object is the list of its own
    properties. *)
Inductive jsval : Type :=
| JUndefined
| JNull
| JBool (b : bool)
| JNum (n : Z)
| JStr (s : string)
| JArr (items : list jsval)
| JObj (fields : list (string * jsval)).

(** [!!v] *)
Definition truthy (v : jsval) : bool :=
  match v with
  | JUndefined | JNull => false
  | JBool b => b
  | JNum n => negb (n =? 0)
  | JStr s => negb (String.eqb s EmptyString)
  | JArr _ | JObj _ => true
  end.

(** [a || b] *)
Definition or_else (a b : jsval) : jsval := if truthy a then a else b.

Fixpoint assoc (k : string) (fields : list (string * jsval)) : option jsval :=
  match fields with
  | [] => None
  | (k', v) :: rest => if String.eqb k k' then Some v else assoc k rest
  end.

Definition nullish (v : jsval) : bool :=
  match v with
  | JUndefined | JNull => true
  | _ => false
  end.

(** [obj.hasOwnProperty(k)], for the property names the harness asks for
    (none of them an index or [length]): a [TypeError] on [null] and
    [undefined], false on the other primitives and on arrays.  On an object
    the method is looked up as any property is: an own property of that
    name hides the method of [Object.prototype], and as no value of
    [JSON.parse] can be called, the call then throws a [TypeError]. *)
Definition hasOwnProperty (obj : jsval) (k : string) : result bool :=
  match obj with
  | JUndefined | JNull => Throw "TypeError"
  | JObj fields =>
      match assoc "hasOwnProperty" fields with
      | Some _ => Throw "TypeError"
      | None => Ok (bool_decide (is_Some (assoc k fields)))
      end
  | _ => Ok false
  end.

(** [obj.k], for the property names the harness reads (none of them on a
    built-in prototype). *)
Definition get (obj : jsval) (k : string) : result jsval :=
  match obj with
  | JUndefined | JNull => Throw "TypeError"
  | JObj fields => Ok (default JUndefined (assoc k fields))
  | _ => Ok JUndefined
  end.

(** The string a template literal substitutes for a value.  A number is
    written in decimal, as the language writes the integers below 10^21 in
    magnitude (from there on it writes an exponent); an object is taken to
    have the [toString] of [Object.prototype]. *)
Fixpoint ToString (v : jsval) : string :=
  match v with
  | JUndefined => "undefined"
  | JNull => "null"
  | JBool true => "true"
  | JBool false => "false"
  | JNum n => pretty n
  | JStr s => s
  | JArr items =>
      (fix join (l : list jsval) : string :=
         match l with
         | [] => EmptyString
         | x :: rest =>
             let sx := if nullish x then EmptyString else ToString x in
             match rest with
             | [] => sx
             | _ :: _ => sx +:+ "," +:+ join rest
             end
         end) items
  | JObj _ => "[object Object]"
  end.

(** [v === n] for a number literal [n] *)
Definition strict_eq_num (v : jsval) (n : Z) : bool :=
  match v with
  | JNum m => m =? n
  | _ => false
  end.

End JS.
Export JS.

(** ** The assertion object [t] of tape, as the log of what it was told *)

Module Tape.

Inductive tap : Type :=
| Assert (ok : bool) (msg : string)
| Comment (msg : string).

Definition tape : Type := list tap.

Definition passed (x : tap) : bool :=
  match x with
  | Assert ok _ => ok
  | Comment _ => true
  end.

(** [t.equal(actual, expected, msg)] on status codes and ready states *)
Definition equal (actual expected : Z) (msg : string) : tap :=
  Assert (actual =? expected) msg.

(** [t.equal(actual, n, msg)] for a value against a number literal *)
Definition equal_num (actual : jsval) (expected : Z) (msg : string) : tap :=
  Assert (strict_eq_num actual expected) msg.

(** [t.ok(v, msg)] *)
Definition ok (v : jsval) (msg : string) : tap := Assert (truthy v) msg.

Definition ok_bool (b : bool) (msg : string) : tap := Assert b msg.

(** [t.fail(msg)] *)
Definition fail (msg : string) : tap := Assert false msg.

(** [t.comment(msg)] *)
Definition comment (msg : string) : tap := Comment msg.

End Tape.
Export Tape.

(** ** [adminApiReq]: what the two listeners of the request do *)

Module Admin.

(** How one request ends: a response (status code, [content-type] header,
    and the value of [JSON.parse(rawData)] on the collected body, [None]
    when it throws), or the [error] event of the request. *)
Inductive outcome : Type :=
| Response (statusCode : Z) (contentType : option string) (parsed : option jsval)
| RequestError (message : string).

(** [/^application\/json/.test(contentType)]; a missing header is tested as
    the string [undefined]. *)
Definition is_json (contentType : option string) : bool :=
  match contentType with
  | Some c => String.prefix "application/json" c
  | None => false
  end.

Section Listeners.
Context {K : Type}.
Variables (method path : string) (response : Z).
Variables (onError : K) (cb : jsval → K).

(** The response listener, together with the [end] listener of the
    response it installs: the assertions made, and the continuation run
    (or the exception of [JSON.parse]). *)
Definition adminApiReq_response (statusCode : Z) (contentType : option string)
    (parsed : option jsval) : list tap * result K :=
  let t1 := [equal statusCode response "status code is Success"] in
  if negb ((200 =? statusCode) || (204 =? statusCode)) then
    (t1, Ok onError)
  else
    let t2 :=
      if 200 =? statusCode
      then t1 ++ [ok_bool (is_json contentType) "content type is application/json"]
      else t1 in
    (t2,
     if 204 =? statusCode then Ok (cb JNull)
     else match parsed with
          | Some v => Ok (cb v)
          | None => Throw "SyntaxError"
          end).

(** The [error] listener of the request. *)
Definition adminApiReq_error (message : string) : list tap * result K :=
  ([fail ("problem with admin API '" +:+ method +:+ "' request to path '"
          +:+ path +:+ "': " +:+ message)],
   Ok onError).

Definition adminApiReq_outcome (o : outcome) : list tap * result K :=
  match o with
  | Response statusCode contentType parsed =>
      adminApiReq_response statusCode contentType parsed
  | RequestError message => adminApiReq_error message
  end.
End Listeners.

(** The two callbacks by name, to tell which of them a request ran. *)
Inductive invoked : Type :=
| OnError
| Cb (res : jsval).

End Admin.
Export Admin.

(** ** [postFlow]: one test run *)

Module Harness.

(** The [params] object of a test: the message counter the handler keeps in
    it, and the two options [postFlow] reads. *)
Record params : Type := Params {
  count : Z;
  flowTimeout : jsval;
  keepFlow : jsval
}.

(** What the message handler [onMsg] of a test does to the run while it
    handles one message, step by step: it asserts on [t] or comments, it
    assigns to properties of [params], and it calls the end continuation it
    is given, as often as it likes. *)
Inductive action : Type :=
| Tells (x : tap)       (* t.ok(...), t.equal(...), t.comment(...), ... *)
| Assigns (p : params)  (* params.count++, ...: params is left as p *)
| Ends.                 (* the end continuation is called *)

(** A call of the handler: what it does, in order, and the exception it
    throws in the end, if it does not return. *)
Record handled : Type := Handled {
  h_actions : list action;
  h_throws : option string
}.

(** The closures [postFlow] hands out as callbacks.  [id] is the interval
    of the connection the closure was made for. *)
Inductive kont : Type :=
| KDone                    (* done *)
| KCreated                 (* (res) => { ... }, the callback of the POST *)
| KOnComplete (id : nat)   (* () => { clearInterval(id); done(); } *)
| KEndDeleted (id : nat).  (* () => { doneClosedown = true; clearInterval(id); done(); } *)

(** A request written to the admin API and not answered yet. *)
Record request : Type := Request {
  rq_method : string;
  rq_path : string;
  rq_payload : string;
  rq_response : Z;
  rq_onError : kont;
  rq_cb : kont
}.

(** An interval made by [setInterval(checkCompleted, timeout, ...)]. *)
Record interval : Type := Interval {
  iv_period : jsval;
  iv_active : bool
}.

Record state : Type := State {
  t : tape;
  prm : params;
  flowId : option jsval;      (* res.id, once the connection listener is installed *)
  lastCount : Z;
  endReceived : bool;
  doneClosedown : bool;
  timeout : jsval;
  intervals : list interval;  (* one per connection, by id *)
  pending : list request;
  doneCalls : nat             (* how often done() has run *)
}.

Definition set_t (x : tape) (s : state) : state :=
  State x (prm s) (flowId s) (lastCount s) (endReceived s) (doneClosedown s)
        (timeout s) (intervals s) (pending s) (doneCalls s).
Definition set_prm (x : params) (s : state) : state :=
  State (t s) x (flowId s) (lastCount s) (endReceived s) (doneClosedown s)
        (timeout s) (intervals s) (pending s) (doneCalls s).
Definition set_flowId (x : option jsval) (s : state) : state :=
  State (t s) (prm s) x (lastCount s) (endReceived s) (doneClosedown s)
        (timeout s) (intervals s) (pending s) (doneCalls s).
Definition set_lastCount (x : Z) (s : state) : state :=
  State (t s) (prm s) (flowId s) x (endReceived s) (doneClosedown s)
        (timeout s) (intervals s) (pending s) (doneCalls s).
Definition set_endReceived (x : bool) (s : state) : state :=
  State (t s) (prm s) (flowId s) (lastCount s) x (doneClosedown s)
        (timeout s) (intervals s) (pending s) (doneCalls s).
Definition set_doneClosedown (x : bool) (s : state) : state :=
  State (t s) (prm s) (flowId s) (lastCount s) (endReceived s) x
        (timeout s) (intervals s) (pending s) (doneCalls s).
Definition set_timeout (x : jsval) (s : state) : state :=
  State (t s) (prm s) (flowId s) (lastCount s) (endReceived s) (doneClosedown s)
        x (intervals s) (pending s) (doneCalls s).
Definition set_intervals (x : list interval) (s : state) : state :=
  State (t s) (prm s) (flowId s) (lastCount s) (endReceived s) (doneClosedown s)
        (timeout s) x (pending s) (doneCalls s).
Definition set_pending (x : list request) (s : state) : state :=
  State (t s) (prm s) (flowId s) (lastCount s) (endReceived s) (doneClosedown s)
        (timeout s) (intervals s) x (doneCalls s).
Definition set_doneCalls (x : nat) (s : state) : state :=
  State (t s) (prm s) (flowId s) (lastCount s) (endReceived s) (doneClosedown s)
        (timeout s) (intervals s) (pending s) x.

Definition set_count (x : Z) (p : params) : params :=
  Params x (flowTimeout p) (keepFlow p).

Definition tell (xs : list tap) (s : state) : state := set_t (t s ++ xs) s.

(** An exception that a listener of the run does not catch: its name, and
    the state of the run at the point where it is thrown, which is all the
    listener has done. *)
Abbreviation thrown := (string * state)%type.

(** [r], evaluated in the state [s] *)
Definition throw_in {A} (s : state) (r : result A) : completion thrown A :=
  match r with
  | Ok a => Ok a
  | Throw e => Throw (e, s)
  end.

(** The double quote character, for the JSON text of the DELETE payload. *)
Definition dquote : string :=
  String (Ascii.Ascii false true false false false true false false) EmptyString.

(** [adminApiReq(t, method, path, payload, response, onError, cb)]: the
    request is written and ended; its listeners run when it is answered
    (see [step]). *)
Definition adminApiReq (method path payload : string) (response : Z)
    (onError cb : kont) (s : state) : state :=
  set_pending (pending s ++ [Request method path payload response onError cb]) s.

(** [done()] *)
Definition done (s : state) : state := set_doneCalls (S (doneCalls s)) s.

(** [clearInterval(id)] *)
Definition clearInterval (id : nat) (s : state) : state :=
  set_intervals
    (alter (λ iv, Interval (iv_period iv) false) id (intervals s)) s.

(** Running a callback with the argument it is called with. *)
Definition call (k : kont) (arg : jsval) (s : state) : completion thrown state :=
  match k with
  | KDone => Ok (done s)
  | KCreated =>
      id ← throw_in s (get arg "id");
      let s := tell [ok id "response has flow id"] s in
      let s := set_prm (set_count 0 (prm s)) s in
      let s := set_lastCount (-1) s in
      let s := set_endReceived false s in
      let s := set_doneClosedown false s in
      let s := set_timeout (or_else (flowTimeout (prm s)) (JNum 1000)) s in
      Ok (set_flowId (Some id) s)
  | KOnComplete id => Ok (done (clearInterval id s))
  | KEndDeleted id => Ok (done (clearInterval id (set_doneClosedown true s)))
  end.

(** [postFlow(t, params, getFlow, wss, onMsg, done)], with [flow] the text
    [JSON.stringify(getFlow(params))]. *)
Definition postFlow (t0 : tape) (p : params) (flow : string) : state :=
  adminApiReq "POST" "/flow" flow 200 KDone KCreated
    (State t0 p None (-1) false false JUndefined [] [] 0).

(** The payload of the DELETE, an object with the one property [id]. *)
Definition testFlowDel (flowId : jsval) : string :=
  "{" +:+ dquote +:+ "id" +:+ dquote +:+ " : " +:+ dquote
      +:+ ToString flowId +:+ dquote +:+ "}".

Definition deleteFlow (flowId : jsval) (cb : kont) (s : state)
    : completion thrown state :=
  if truthy (keepFlow (prm s)) then
    call cb JUndefined (tell [comment "!!! NOT deleting test flow !!!"] s)
  else
    let s := tell [comment "Delete test flow"] s in
    Ok (adminApiReq "DELETE" ("/flow/" +:+ ToString flowId) (testFlowDel flowId)
          204 cb cb s).

(** The two callbacks [deleteFlow] is called with. *)
Definition finalizer (k : kont) : Prop :=
  match k with
  | KOnComplete _ | KEndDeleted _ => True
  | KDone | KCreated => False
  end.

Definition checkCompleted (flowId : jsval) (onComplete : kont) (s : state)
    : completion thrown state :=
  s ← (if doneClosedown s then
         call onComplete JUndefined s
       else if count (prm s) =? lastCount s then
         let s := tell [comment "Check for correct closedown"] s in
         let s := tell [ok_bool (endReceived s) "end message has been received"] s in
         let s := tell [ok_bool (doneClosedown s) "closedown has been completed"] s in
         s ← deleteFlow flowId onComplete s;
         Ok (set_doneClosedown true s)
       else Ok s);
  Ok (set_lastCount (count (prm s)) s).

(** The events of the loop that reach the run. *)
Inductive event : Type :=
| Answered (i : nat) (o : outcome)          (* the i-th outstanding request ends *)
| Connection (readyState : Z)               (* wss emits connection *)
| Tick (id : nat)                           (* the interval id fires *)
| Message (id : nat) (msg : option jsval)   (* ws emits message; JSON.parse(msg) *)
| Ended (id : nat).                         (* the handler calls, after it has
                                               returned, the end continuation it
                                               was given on the connection id *)

(** [WebSocket.OPEN] *)
Definition OPEN : Z := 1.

Section Run.

(** The handler of the test.  What it does with a message depends on the
    log, on [params] and on the message: what a handler has to remember
    from one message to the next it keeps in [params], which the harness
    passes to it for that. *)
Variable onMsg : tape → params → jsval → handled.

(** The end continuation that the listener of [message] on the connection
    [id] hands to the handler. *)
Definition on_end (fid : jsval) (id : nat) (s : state) : completion thrown state :=
  deleteFlow fid (KEndDeleted id) (set_endReceived true s).

Definition act (fid : jsval) (id : nat) (a : action) (s : state)
    : completion thrown state :=
  match a with
  | Tells x => Ok (tell [x] s)
  | Assigns p => Ok (set_prm p s)
  | Ends => on_end fid id s
  end.

Fixpoint acts (fid : jsval) (id : nat) (l : list action) (s : state)
    : completion thrown state :=
  match l with
  | [] => Ok s
  | a :: l => s ← act fid id a s; acts fid id l s
  end.

(** The listener of [message] on the connection [id]. *)
Definition on_message (fid : jsval) (id : nat) (msg : option jsval) (s : state)
    : completion thrown state :=
  match msg with
  | None => Throw ("SyntaxError", s)
  | Some msgObj =>
      let h := onMsg (t s) (prm s) msgObj in
      s ← acts fid id (h_actions h) s;
      match h_throws h with
      | Some e => Throw (e, s)
      | None =>
          close ← throw_in s (hasOwnProperty msgObj "close");
          Ok s
      end
  end.

(** The listener of [connection]. *)
Definition on_connection (readyState : Z) (s : state) : state :=
  let s := tell [equal readyState OPEN "websocket connection is open"] s in
  let s := set_intervals (intervals s ++ [Interval (timeout s) true]) s in
  tell [comment "Check for expected data from flow"] s.

Definition step (s : state) (e : event) : completion thrown state :=
  match e with
  | Answered i o =>
      match pending s !! i with
      | None => Ok s
      | Some rq =>
          let s := set_pending (delete i (pending s)) s in
          let '(taps, k) :=
            adminApiReq_outcome (rq_method rq) (rq_path rq) (rq_response rq)
              (call (rq_onError rq) JUndefined) (call (rq_cb rq)) o in
          let s := tell taps s in
          k ← throw_in s k; k s
      end
  | Connection readyState =>
      match flowId s with
      | None => Ok s
      | Some _ => Ok (on_connection readyState s)
      end
  | Tick id =>
      match flowId s, intervals s !! id with
      | Some fid, Some (Interval _ true) => checkCompleted fid (KOnComplete id) s
      | _, _ => Ok s
      end
  | Message id msg =>
      match flowId s, intervals s !! id with
      | Some fid, Some _ => on_message fid id msg s
      | _, _ => Ok s
      end
  | Ended id =>
      match flowId s, intervals s !! id with
      | Some fid, Some _ => on_end fid id s
      | _, _ => Ok s
      end
  end.

(** A run of the loop: events in the order they are dispatched; an
    uncaught exception ends it. *)
Fixpoint run (s : state) (es : list event) : completion thrown state :=
  match es with
  | [] => Ok s
  | e :: es => s ← step s e; run s es
  end.
End Run.

(** The state in which a listener or a run is over: by returning, or by
    the exception. *)
Definition final (r : completion thrown state) : state :=
  match r with
  | Ok s => s
  | Throw (_, s) => s
  end.

(** *** A run to try the harness on *)

Definition params0 : params := Params 0 JUndefined JUndefined.

(** The admin API answers the POST with the id of the new flow. *)
Definition created : event :=
  Answered 0 (Response 200 (Some "application/json; charset=utf-8")
                (Some (JObj [("id", JStr "91ad451.f6e52b8")]))).

(** The admin API answers the oldest outstanding DELETE: the flow is
    deleted, or it is not there any more. *)
Definition deleted : event := Answered 0 (Response 204 None None).
Definition gone : event := Answered 0 (Response 404 None None).

(** A message handler that counts the messages in [params.count] and ends
    the run on a message with a [close] property. *)
Definition counting (t : tape) (p : params) (msgObj : jsval) : handled :=
  let counted := Assigns (set_count (count p + 1) p) in
  match hasOwnProperty msgObj "close" with
  | Ok true => Handled [counted; Ends] None
  | Ok false => Handled [counted] None
  | Throw e => Handled [counted] (Some e)
  end.


(** A handler that says the end twice on a message with a [close]
    property. *)
Definition hasty (t : tape) (p : params) (msgObj : jsval) : handled :=
  match hasOwnProperty msgObj "close" with
  | Ok true => Handled [Ends; Tells (Comment "end of stream"); Ends] None
  | Ok false => Handled [] None
  | Throw e => Handled [] (Some e)
  end.

(** The state of a run in which three messages have come in since the flow
    was created, the last check having seen all three. *)
Definition stalled : state :=
  State [] (Params 3 JUndefined JUndefined) (Some (JStr "91ad451.f6e52b8"))
        3 false false (JNum 1000) [Interval (JNum 1000) true] [] 0.

End Harness.

(** ** [checkGrain] *)

(** The class of [./Grain.js] is a parameter: its constructor [Grain] and
    the five properties [checkGrain] reads.  So is the outcome of [v > 0]
    for a [v] that is a string, an array or an object, which the language
    decides by converting [v] to a primitive and then to a number
    ([coerced_gt0]; the conversion of an object throws when it has an own
    [toString] property). *)
Section GrainClass.
Variable grain : Type.
Variable Grain : jsval → jsval → jsval → jsval → jsval → jsval → jsval → grain.
Variables ptpSync ptpOrigin flow_id source_id duration : grain → jsval.
Variable coerced_gt0 : jsval → result bool.

(** [v > 0] *)
Definition gt0 (v : jsval) : result bool :=
  match v with
  | JUndefined => Ok false
  | JNull => Ok false
  | JBool b => Ok b
  | JNum n => Ok (0 <? n)
  | _ => coerced_gt0 v
  end.

(** [obj.hasOwnProperty(k) ? obj.k : 0] *)
Definition own_or_0 (obj : jsval) (k : string) : result jsval :=
  has ← hasOwnProperty obj k;
  if has : bool then get obj k else Ok (JNum 0).

(** The reconstructed grain [new Grain(null, obj.ptpSyncTimestamp, ...)]. *)
Definition reconstruct (obj : jsval) : result grain :=
  sync ← get obj "ptpSyncTimestamp";
  origin ← get obj "ptpOriginTimestamp";
  timecode ← get obj "timecode";
  fid ← get obj "flow_id";
  sid ← get obj "source_id";
  dur ← get obj "duration";
  Ok (Grain JNull sync origin timecode fid sid dur).

(** [checkGrain] of [src/testUtil.js] *)
Definition checkGrain (t : tape) (obj : jsval) : result (tape * grain) :=
  g ← reconstruct obj;
  payloadCount ← own_or_0 obj "payloadCount";
  let t := t ++ [equal_num payloadCount 1 "has single payload"] in
  payloadSize ← own_or_0 obj "payloadSize";
  positive ← gt0 payloadSize;
  let t := t ++ [ok_bool positive "has payload contents"] in
  let t := t ++ [ok (ptpSync g) "has valid PTP sync timestamp"] in
  let t := t ++ [ok (ptpOrigin g) "has valid PTP origin timestamp"] in
  let t := t ++ [ok (flow_id g) "has valid flow id"] in
  let t := t ++ [ok (source_id g) "has valid source id"] in
  let t := t ++ [ok (duration g) "has valid duration"] in
  Ok (t, g).
End GrainClass.

(** An instance of the class to try [checkGrain] on: a value object that
    holds what its constructor is given (the two timestamps, the timecode,
    the flow and source identifiers, the duration). *)
Record plain_grain : Type := PlainGrain {
  pg_ptpSync : jsval;
  pg_ptpOrigin : jsval;
  pg_timecode : jsval;
  pg_flow_id : jsval;
  pg_source_id : jsval;
  pg_duration : jsval
}.

Definition plainGrain (buffers sync origin timecode fid sid dur : jsval)
    : plain_grain :=
  PlainGrain sync origin timecode fid sid dur.

(** A comparison that takes every string, array and object for not a
    number. *)
Definition coerced_NaN (v : jsval) : result bool := Ok false.

(** A message as the tests receive it for a grain. *)
Definition grain_fields : list (string * jsval) :=
  [("ptpSyncTimestamp", JStr "1447:0");
   ("ptpOriginTimestamp", JStr "1447:0");
   ("flow_id", JStr "e7f9a2c0");
   ("source_id", JStr "b1c4d8e6");
   ("duration", JArr [JNum 1; JNum 25]);
   ("payloadCount", JNum 1);
   ("payloadSize", JNum 8192)].

(** The older copy of the module, [src/unnamed/part_000]. *)
Module Old.
Section GrainClass.
Variable grain : Type.
Variable Grain : jsval → jsval → jsval → jsval → jsval → jsval → jsval → grain.
Variables ptpSync ptpOrigin flow_id source_id duration : grain → jsval.
Variable coerced_gt0 : jsval → result bool.

(** [checkGrain] of [src/unnamed/part_000] *)
Definition checkGrain (t : tape) (obj : jsval) : result (tape * grain) :=
  sync ← get obj "ptpSyncTimestamp";
  origin ← get obj "ptpOriginTimestamp";
  timecode ← get obj "timecode";
  fid ← get obj "flow_id";
  sid ← get obj "source_id";
  dur ← get obj "duration";
  let g := Grain JNull sync origin timecode fid sid dur in
  hasCount ← hasOwnProperty obj "payloadCount";
  payloadCount ← (if hasCount : bool then get obj "payloadCount" else Ok (JNum 0));
  let t := t ++ [equal_num payloadCount 1 "has single payload"] in
  hasSize ← hasOwnProperty obj "payloadSize";
  payloadSize ← (if hasSize : bool then get obj "payloadSize" else Ok (JNum 0));
  positive ← gt0 coerced_gt0 payloadSize;
  let t := t ++ [ok_bool positive "has payload contents"] in
  let t := t ++ [ok (ptpSync g) "has valid PTP sync timestamp"] in
  let t := t ++ [ok (ptpOrigin g) "has valid PTP origin timestamp"] in
  let t := t ++ [ok (flow_id g) "has valid flow id"] in
  let t := t ++ [ok (source_id g) "has valid source id"] in
  let t := t ++ [ok (duration g) "has valid duration"] in
  Ok (t, g).
End GrainClass.
End Old.

(** ** The staging directory: [download], [rimraf], [delTmp] *)

Module FS.

(** What [lstat] finds at a path.  Symbolic links are not modelled. *)
Inductive kind : Type :=
| File
| Dir.

#[global] Instance kind_eq_dec : EqDecision kind.
Proof. solve_decision. Defined.

(** [stat.isDirectory()] *)
Definition isDirectory (stat : kind) : bool :=
  match stat with
  | Dir => true
  | File => false
  end.

(** A path is the list of its components; the file system maps the paths
    that exist to what is there.  Its operations fail for the reasons the
    tree itself gives (a missing entry, a file where a directory is needed,
    a directory that is not empty). *)
Abbreviation path := (list string).

(** The names an entry of a directory can have, which are the strings that
    [path.join] appends to a path as one component: not empty, not [.] or
    [..], and without a separator or a null character. *)
Definition slash : Ascii.ascii :=
  Ascii.Ascii true true true true false true false false.

Fixpoint separated (name : string) : bool :=
  match name with
  | EmptyString => false
  | String c name =>
      Ascii.eqb c slash || Ascii.eqb c Ascii.zero || separated name
  end.

Definition plain (name : string) : bool :=
  negb (separated name)
  && negb (String.eqb name EmptyString)
  && negb (String.eqb name ".")
  && negb (String.eqb name "..").

(** [path.join(dir, name)], for a [name] that is [plain], as the names are
    that [readdir] lists; any other string [path.join] resolves against
    [dir], segment by segment. *)
Definition join (dir : path) (name : string) : path := dir ++ [name].

(** [path.dirname(p)] *)
Definition dirname (p : path) : path := take (length p - 1)%nat p.

(** The name under which [p] is an entry of [dir], if it is one. *)
Fixpoint entry_name (dir p : path) : option string :=
  match dir, p with
  | [], [name] => Some name
  | d :: dir, c :: p => if decide (d = c) then entry_name dir p else None
  | _, _ => None
  end.

Definition entries (dir : path) (fs : gmap path kind) : list string :=
  omap (λ e, entry_name dir e.1) (map_to_list fs).

(** [fs.exists] *)
Definition exists_ (p : path) (fs : gmap path kind) : bool :=
  bool_decide (is_Some (fs !! p)).

(** [fs.lstat] *)
Definition lstat (p : path) (fs : gmap path kind) : result kind :=
  match fs !! p with
  | Some stat => Ok stat
  | None => Throw "ENOENT"
  end.

(** [fs.readdir] *)
Definition readdir (p : path) (fs : gmap path kind) : result (list string) :=
  match fs !! p with
  | Some Dir => Ok (entries p fs)
  | Some File => Throw "ENOTDIR"
  | None => Throw "ENOENT"
  end.

(** [fs.unlink] *)
Definition unlink (p : path) (fs : gmap path kind) : result (gmap path kind) :=
  match fs !! p with
  | Some File => Ok (delete p fs)
  | Some Dir => Throw "EISDIR"
  | None => Throw "ENOENT"
  end.

(** [fs.rmdir] *)
Definition rmdir (p : path) (fs : gmap path kind) : result (gmap path kind) :=
  match fs !! p with
  | Some Dir =>
      match entries p fs with
      | [] => Ok (delete p fs)
      | _ :: _ => Throw "ENOTEMPTY"
      end
  | Some File => Throw "ENOTDIR"
  | None => Throw "ENOENT"
  end.

(** [fs.mkdir]; [fault] is an error of the operating system that the tree
    does not explain (no permission, a read-only or full device), if any. *)
Definition mkdir (fault : option string) (p : path) (fs : gmap path kind)
    : result (gmap path kind) :=
  match fault with
  | Some code => Throw code
  | None =>
      if exists_ p fs then Throw "EEXIST"
      else match fs !! dirname p with
           | Some Dir => Ok (<[p := Dir]> fs)
           | Some File => Throw "ENOTDIR"
           | None => Throw "ENOENT"
           end
  end.

(** [fs.createWriteStream(p)] with a source piped into it until [finish]. *)
Definition write_file (p : path) (fs : gmap path kind) : result (gmap path kind) :=
  match fs !! dirname p with
  | Some Dir =>
      match fs !! p with
      | Some Dir => Throw "EISDIR"
      | _ => Ok (<[p := File]> fs)
      end
  | Some File => Throw "ENOTDIR"
  | None => Throw "ENOENT"
  end.

(** Awaiting the promises of [list.map(f)] with [Promise.all]: the file
    system operations of the callbacks, one entry after the other.  [None]
    is a recursion cut short by [fuel]. *)
Fixpoint all (f : string → gmap path kind → option (result (gmap path kind)))
    (list : list string) (fs : gmap path kind)
    : option (result (gmap path kind)) :=
  match list with
  | [] => Some (Ok fs)
  | name :: list =>
      match f name fs with
      | Some (Ok fs) => all f list fs
      | other => other
      end
  end.

(** The callback of [list.map] in [rimraf], with the recursive call as
    [rimraf]. *)
Definition remove_entry
    (rimraf : path → gmap path kind → option (result (gmap path kind)))
    (dir : path) (name : string) (fs : gmap path kind)
    : option (result (gmap path kind)) :=
  let filename := join dir name in
  match lstat filename fs with
  | Throw e => Some (Throw e)
  | Ok stat =>
      if isDirectory stat then rimraf filename fs
      else Some (unlink filename fs)
  end.

Fixpoint rimraf (fuel : nat) (dir : path) (fs : gmap path kind)
    : option (result (gmap path kind)) :=
  match fuel with
  | O => None
  | S fuel =>
      if exists_ dir fs then
        match readdir dir fs with
        | Throw e => Some (Throw e)
        | Ok list =>
            match all (remove_entry (rimraf fuel) dir) list fs with
            | Some (Ok fs) => Some (rmdir dir fs)
            | other => other
            end
        end
      else Some (Ok fs)
  end.

(** Fuel that no recursion of [rimraf] on [fs] uses up: one more than the
    longest path. *)
Definition depth (fs : gmap path kind) : nat :=
  S (list_max (length <$> (map_to_list fs).*1)).

Section Staging.
Variable __dirname : path.
Variable getUri : string → result string.

(** [download(uri, file)], with [file] the name of the entry to write in
    the staging directory (see [join]). *)
Definition download (fault : option string) (uri file : string)
    (fs : gmap path kind) : result (gmap path kind) :=
  fs ← match mkdir fault (join __dirname "tmp") fs with
       | Ok fs => Ok fs
       | Throw code => if String.eqb code "EEXIST" then Ok fs else Throw code
       end;
  srcStream ← getUri uri;
  write_file (join (join __dirname "tmp") file) fs.

Definition delTmp (fuel : nat) (fs : gmap path kind)
    : option (result (gmap path kind)) :=
  rimraf fuel (join __dirname "tmp") fs.
End Staging.

(** Every entry but the root lies in a directory. *)
Definition wf (fs : gmap path kind) : Prop :=
  map_Forall (λ p _, p = [] ∨ fs !! dirname p = Some Dir) fs.

(** The paths of [fs] are shorter than [n]. *)
Definition shallow (n : nat) (fs : gmap path kind) : Prop :=
  ∀ q, is_Some (fs !! q) → (length q < n)%nat.

(** [fs] without [dir] and everything below it. *)
Definition without (dir : path) (fs : gmap path kind) : gmap path kind :=
  filter (λ e, ¬ dir `prefix_of` e.1) fs.

#[global] Instance wf_dec fs : Decision (wf fs).
Proof. unfold wf. apply _. Defined.

(** *** A tree to try the utilities on *)

Definition staged : gmap path kind :=
  list_to_map
    [([], Dir);
     (["test"], Dir);
     (["test"; "testUtil.js"], File);
     (["test"; "tmp"], Dir);
     (["test"; "tmp"; "tone.wav"], File);
     (["test"; "tmp"; "frames"], Dir);
     (["test"; "tmp"; "frames"; "0001.v210"], File)].

End FS.

(** * Runs and trees: further notions *)

Module Notions.
Import Harness FS.

(** A request that failed: a status that is no success, or no response at
    all. *)
Definition failed (o : outcome) : Prop :=
  match o with
  | Response statusCode _ _ => statusCode ≠ 200 ∧ statusCode ≠ 204
  | RequestError _ => True
  end.

(** The DELETE of the flow [fid], as [deleteFlow] writes it. *)
Definition deletion (fid : jsval) (rq : request) : Prop :=
  ∃ cb, finalizer cb ∧
    rq = Request "DELETE" ("/flow/" +:+ ToString fid) (testFlowDel fid) 204 cb cb.

(** The flow is created, and all that is outstanding are deletions of it. *)
Definition running (s : state) : Prop :=
  ∃ fid, flowId s = Some fid ∧ Forall (deletion fid) (pending s).



(** How often the end continuation is called in what a handler does. *)
Fixpoint ends (l : list action) : nat :=
  match l with
  | [] => 0
  | Ends :: l => S (ends l)
  | _ :: l => ends l
  end.

(** A handler that calls the end continuation at most once for a
    message. *)
Definition sparing (onMsg : tape → params → jsval → handled) : Prop :=
  ∀ t p msgObj, (ends (h_actions (onMsg t p msgObj)) ≤ 1)%nat.

(** How often the listener of an event can run a finalization: as often as
    the handler calls the end continuation for a message, once for any
    other event. *)
Definition calls (onMsg : tape → params → jsval → handled) (s : state)
    (e : event) : nat :=
  match e with
  | Message _ (Some msgObj) => ends (h_actions (onMsg (t s) (prm s) msgObj))
  | Message _ None => 0
  | _ => 1
  end.


(** *** Runs and trees to try them on *)

(** A test that keeps its flow. *)
Definition kept : state :=
  State [] (Params 0 JUndefined (JBool true)) (Some (JStr "91ad451.f6e52b8"))
        (-1) false false (JNum 1000) [Interval (JNum 1000) true] [] 0.

(** A stalled run whose DELETE is not answered yet. *)
Definition closing : state :=
  State [] (Params 3 JUndefined JUndefined) (Some (JStr "91ad451.f6e52b8"))
        3 false true (JNum 1000) [Interval (JNum 1000) true]
        [Request "DELETE" "/flow/91ad451.f6e52b8"
                 (testFlowDel (JStr "91ad451.f6e52b8")) 204
                 (KOnComplete 0) (KOnComplete 0)] 0.

(** A run with two connections. *)
Definition two_connections : state :=
  State [] (Params 3 JUndefined JUndefined) (Some (JStr "91ad451.f6e52b8"))
        2 false false (JNum 1000)
        [Interval (JNum 1000) true; Interval (JNum 1000) true] [] 0.

(** The tree before anything is staged. *)
Definition unstaged : gmap path kind :=
  list_to_map
    [([], Dir);
     (["test"], Dir);
     (["test"; "testUtil.js"], File)].

(** A tree with a regular file where the staging directory goes. *)
Definition blocked : gmap path kind :=
  list_to_map
    [([], Dir);
     (["test"], Dir);
     (["test"; "tmp"], File)].

End Notions.
Export Notions.

(** * Properties *)

Import Harness FS.

(** ** [adminApiReq] *)

(** A 204 answer to a request that expects 200 differs from the expected
    status, and yet the success callback runs (with [null]), not the error
    callback: all that happens is the failed assertion on the status. *)
Lemma adminApiReq_other_success_status :
  204 ≠ 200 ∧
  adminApiReq_outcome "POST" "/flow" 200 OnError Cb (Response 204 None None)
  = ([Assert false "status code is Success"], Ok (Cb JNull)).
Proof. split; [lia | reflexivity]. Qed.

(** C2 (as amended).  What decides between the two callbacks is whether the
    status is 200 or 204, not whether it is the expected one: any other
    status runs [onError] alone, after the assertion on the status; a
    transport error runs [onError] alone, after a failure is reported that
    names the method and the path; a 204 runs [cb] on [null] and a 200 with
    a JSON body runs [cb] on the body, whatever status was expected. *)
Theorem adminApiReq_aborts {K} (method path : string) (response : Z)
    (onError : K) (cb : jsval → K) :
  (∀ statusCode contentType parsed,
     statusCode ≠ 200 → statusCode ≠ 204 →
     adminApiReq_outcome method path response onError cb
       (Response statusCode contentType parsed)
     = ([equal statusCode response "status code is Success"], Ok onError))
  ∧ (∀ message,
       adminApiReq_outcome method path response onError cb (RequestError message)
       = ([fail ("problem with admin API '" +:+ method
                 +:+ "' request to path '" +:+ path +:+ "': " +:+ message)],
          Ok onError))
  ∧ (∀ contentType parsed,
       adminApiReq_outcome method path response onError cb
         (Response 204 contentType parsed)
       = ([equal 204 response "status code is Success"], Ok (cb JNull)))
  ∧ (∀ contentType res,
       adminApiReq_outcome method path response onError cb
         (Response 200 contentType (Some res))
       = ([equal 200 response "status code is Success";
           ok_bool (is_json contentType) "content type is application/json"],
          Ok (cb res))).
Proof.
  repeat split.
  intros statusCode contentType parsed H200 H204. simpl.
  unfold adminApiReq_response.
  destruct (Z.eqb_spec 200 statusCode); [lia|].
  destruct (Z.eqb_spec 204 statusCode); [lia|]. done.
Qed.

Lemma adminApiReq_aborts_witness :
  adminApiReq_outcome "DELETE" "/flow/91ad451.f6e52b8" 204 OnError Cb
    (Response 404 None None)
  = ([Assert false "status code is Success"], Ok OnError).
Proof.
  apply (proj1 (adminApiReq_aborts "DELETE" "/flow/91ad451.f6e52b8" 204 OnError Cb));
    lia.
Defined.

(** A 200 whose body is not JSON ends in the exception of [JSON.parse]:
    neither callback runs. *)
Lemma adminApiReq_unparsable {K} (method path : string) (response : Z)
    (onError : K) (cb : jsval → K) contentType :
  (adminApiReq_outcome method path response onError cb
     (Response 200 contentType None)).2 = Throw "SyntaxError".
Proof. reflexivity. Qed.

(** ** [deleteFlow] *)


(** Taking the request just written off the list leaves the state as it
    was before. *)
Lemma take_request s rq :
  set_pending (delete (length (pending s)) (pending s ++ [rq]))
    (set_pending (pending s ++ [rq]) s) = s.
Proof. rewrite delete_middle, (right_id_L [] (++)). by destruct s. Qed.



Section Run.
Variable onMsg : tape → params → jsval → handled.

(** The answer to the DELETE that [deleteFlow] has written: the request
    is no longer outstanding, and its listeners run in the state
    [deleteFlow] was called in, after the comment. *)
Lemma deleteFlow_answered flowId cb s o :
  step onMsg
    (adminApiReq "DELETE" ("/flow/" +:+ ToString flowId) (testFlowDel flowId) 204
       cb cb (tell [comment "Delete test flow"] s))
    (Answered (length (pending s)) o)
  = let '(taps, k) :=
      adminApiReq_outcome "DELETE" ("/flow/" +:+ ToString flowId) 204
        (call cb JUndefined) (call cb) o in
    let s := tell taps (tell [comment "Delete test flow"] s) in
    k ← throw_in s k; k s.
Proof.
  unfold step, adminApiReq.
  change (pending (set_pending ?x ?s)) with x.
  change (pending (tell ?x ?s)) with (pending s).
  rewrite list_lookup_middle by done.
  cbn [rq_method rq_path rq_response rq_onError rq_cb].
  pose proof (take_request (tell [comment "Delete test flow"] s)) as Htake.
  change (pending (tell ?x ?s)) with (pending s) in Htake.
  by rewrite Htake.
Qed.


(** X13.  A DELETE answered 200 with a body that is not JSON ends the run
    with the [SyntaxError] of [JSON.parse], whatever the continuation of
    [deleteFlow]: when it is thrown the two assertions on the response have
    been made, the request is no longer outstanding, and the continuation
    has not run, so that [done] has not been called and no interval has
    been cleared. *)
Theorem deleteFlow_unparsable flowId cb s s1 contentType es :
  truthy (keepFlow (prm s)) = false →
  deleteFlow flowId cb s = Ok s1 →
  ∃ s2,
    run onMsg s1
      (Answered (length (pending s)) (Response 200 contentType None) :: es)
    = Throw ("SyntaxError", s2)
    ∧ t s2 = t s ++ [Comment "Delete test flow";
                     Assert false "status code is Success";
                     Assert (is_json contentType) "content type is application/json"]
    ∧ pending s2 = pending s
    ∧ doneCalls s2 = doneCalls s
    ∧ intervals s2 = intervals s
    ∧ doneClosedown s2 = doneClosedown s.
Proof.
  unfold deleteFlow. intros -> [= <-]. cbn [run].
  rewrite deleteFlow_answered. eexists. split; [reflexivity|].
  split; [|by repeat split].
  cbn. by rewrite <-(assoc_L (++)).
Qed.


(** With the closedown done, a check only finalizes. *)
Lemma checkCompleted_closed fid id s :
  doneClosedown s = true →
  checkCompleted fid (KOnComplete id) s
  = Ok (set_lastCount (count (prm s)) (done (clearInterval id s))).
Proof. intros Hdone. unfold checkCompleted. by rewrite Hdone. Qed.
End Run.



Lemma deleteFlow_unparsable_witness :
  ∃ s1 s2, deleteFlow (JStr "91ad451.f6e52b8") (KOnComplete 0) stalled = Ok s1
    ∧ run counting s1 [Answered 0 (Response 200 (Some "text/html") None); Tick 0]
      = Throw ("SyntaxError", s2)
    ∧ doneCalls s2 = 0%nat.
Proof.
  destruct (deleteFlow_unparsable counting (JStr "91ad451.f6e52b8") (KOnComplete 0)
              stalled _ (Some "text/html") [Tick 0] eq_refl eq_refl)
    as (s2 & Hs2 & _ & _ & Hd & _).
  eexists _, s2. split; [reflexivity|]. split; [exact Hs2|exact Hd].
Defined.


(** ** [postFlow]: how often [done] runs *)

(** A cleared interval runs no check. *)
Lemma tick_cleared onMsg s id period :
  intervals s !! id = Some (Interval period false) →
  step onMsg s (Tick id) = Ok s.
Proof. intros Hiv. simpl. rewrite Hiv. by destruct (flowId s). Qed.

(** When each DELETE is answered before the next check, [done] runs once
    on either path, and the checks that follow find the interval cleared. *)
Example postFlow_end_once :
  ∃ s, run counting (postFlow [] params0 "{}")
         [created; Connection OPEN; Tick 0;
          Message 0 (Some (JObj [("close", JBool true)])); deleted; Tick 0] = Ok s
       ∧ doneCalls s = 1%nat ∧ doneClosedown s = true ∧ pending s = [].
Proof. eexists. split; [vm_compute; reflexivity|by repeat split]. Qed.

Example postFlow_stall_once :
  ∃ s, run counting (postFlow [] params0 "{}")
         [created; Connection OPEN; Tick 0; Tick 0; deleted; Tick 0] = Ok s
       ∧ doneCalls s = 1%nat ∧ doneClosedown s = true ∧ pending s = [].
Proof. eexists. split; [vm_compute; reflexivity|by repeat split]. Qed.

(** C1, on the code: [done] runs twice in a run that stalls while the DELETE
    takes longer than one period of the interval (the check that finds
    the closedown done finalizes, and so does the answer to the DELETE
    when it comes), whatever the message handler; and it runs twice when
    an end message is followed by two checks before its DELETE is answered
    (the second check sends a DELETE of its own, and each answer
    finalizes). *)
Theorem postFlow_done_twice :
  (∀ onMsg, ∃ s,
     run onMsg (postFlow [] params0 "{}")
       [created; Connection OPEN; Tick 0; Tick 0; Tick 0; deleted] = Ok s
     ∧ doneCalls s = 2%nat)
  ∧ (∃ s,
     run counting (postFlow [] params0 "{}")
       [created; Connection OPEN; Message 0 (Some (JObj [("close", JBool true)]));
        Tick 0; Tick 0; deleted; gone] = Ok s
     ∧ doneCalls s = 2%nat).
Proof.
  split; [intros onMsg|]; eexists; (split; [vm_compute; reflexivity|reflexivity]).
Qed.

(** ** [checkGrain] *)

Lemma own_or_0_obj fields k :
  assoc "hasOwnProperty" fields = None →
  own_or_0 (JObj fields) k = Ok (default (JNum 0) (assoc k fields)).
Proof.
  intros Hown. unfold own_or_0. cbn [hasOwnProperty]. rewrite Hown.
  cbn [mbind result_bind get]. destruct (assoc k fields) as [v|] eqn:Hk.
  - by rewrite bool_decide_eq_true_2 by eauto.
  - rewrite bool_decide_eq_false_2; [done|]. by intros [? ?].
Qed.

Lemma own_or_0_hidden fields k :
  is_Some (assoc "hasOwnProperty" fields) →
  own_or_0 (JObj fields) k = Throw "TypeError".
Proof. intros [v Hown]. unfold own_or_0. cbn [hasOwnProperty]. by rewrite Hown. Qed.

Lemma strict_eq_num_true v n : strict_eq_num v n = true ↔ v = JNum n.
Proof.
  destruct v; simpl; try (split; [done|discriminate]).
  rewrite Z.eqb_eq. split; [by intros ->|by intros [= ->]].
Qed.

Section GrainClass.
Variable grain : Type.
Variable Grain : jsval → jsval → jsval → jsval → jsval → jsval → jsval → grain.
Variables ptpSync ptpOrigin flow_id source_id duration : grain → jsval.
Variable coerced_gt0 : jsval → result bool.

(** C4 (as amended).  On a message object that has no own property named
    [hasOwnProperty], [checkGrain] makes seven assertions and no other:
    that the payload count (0 when the object has none) is 1; that the
    payload size (0 when the object has none) is greater than 0; that the
    sync timestamp, the origin timestamp, the flow id, the source id and
    the duration of the reconstructed grain are truthy.  What it returns is
    the grain as the constructor made it from the properties of the object,
    whatever the assertions found.  On an object that has an own property
    named [hasOwnProperty] it throws a [TypeError] and returns nothing. *)
Theorem checkGrain_asserts (t : tape) (fields : list (string * jsval))
    (positive : bool) :
  let field k := default JUndefined (assoc k fields) in
  let g := Grain JNull (field "ptpSyncTimestamp") (field "ptpOriginTimestamp")
             (field "timecode") (field "flow_id") (field "source_id")
             (field "duration") in
  let payloadCount := default (JNum 0) (assoc "payloadCount" fields) in
  let payloadSize := default (JNum 0) (assoc "payloadSize" fields) in
  let asserted :=
    [Assert (strict_eq_num payloadCount 1) "has single payload";
     Assert positive "has payload contents";
     Assert (truthy (ptpSync g)) "has valid PTP sync timestamp";
     Assert (truthy (ptpOrigin g)) "has valid PTP origin timestamp";
     Assert (truthy (flow_id g)) "has valid flow id";
     Assert (truthy (source_id g)) "has valid source id";
     Assert (truthy (duration g)) "has valid duration"] in
  gt0 coerced_gt0 payloadSize = Ok positive →
  (assoc "hasOwnProperty" fields = None →
     checkGrain grain Grain ptpSync ptpOrigin flow_id source_id duration
       coerced_gt0 t (JObj fields) = Ok (t ++ asserted, g))
  ∧ (is_Some (assoc "hasOwnProperty" fields) →
       checkGrain grain Grain ptpSync ptpOrigin flow_id source_id duration
         coerced_gt0 t (JObj fields) = Throw "TypeError")
  ∧ (forallb passed asserted = true ↔
       payloadCount = JNum 1 ∧ positive = true
       ∧ truthy (ptpSync g) = true ∧ truthy (ptpOrigin g) = true
       ∧ truthy (flow_id g) = true ∧ truthy (source_id g) = true
       ∧ truthy (duration g) = true)
  ∧ (∀ n, payloadSize = JNum n → (positive = true ↔ 0 < n)).
Proof.
  intros field g payloadCount payloadSize asserted Hpos. split; [|split; [|split]].
  - intros Hown. unfold checkGrain, reconstruct.
    cbn [get mbind result_bind]. rewrite !own_or_0_obj by done.
    cbn [mbind result_bind]. fold payloadSize. rewrite Hpos.
    cbn [mbind result_bind]. by rewrite <-!(assoc_L (++)).
  - intros Hown. unfold checkGrain, reconstruct.
    cbn [get mbind result_bind].
    by rewrite (own_or_0_hidden fields "payloadCount").
  - unfold asserted. cbn [forallb passed]. rewrite !andb_true_iff.
    rewrite strict_eq_num_true. tauto.
  - intros n Hn. rewrite Hn in Hpos. simpl in Hpos. injection Hpos as <-.
    by rewrite Z.ltb_lt.
Qed.

(** C10.  The two copies of [checkGrain] make the same assertions and
    return the same grain (or throw the same exception) on every
    argument. *)
Theorem checkGrain_same (t : tape) (obj : jsval) :
  checkGrain grain Grain ptpSync ptpOrigin flow_id source_id duration coerced_gt0
    t obj
  = Old.checkGrain grain Grain ptpSync ptpOrigin flow_id source_id duration
      coerced_gt0 t obj.
Proof.
  unfold checkGrain, Old.checkGrain, reconstruct, own_or_0.
  destruct obj as [| | | | | |fields]; try reflexivity.
  cbn [hasOwnProperty]. destruct (assoc "hasOwnProperty" fields); reflexivity.
Qed.

(** Nothing is asserted of [null] and [undefined]: reading the first
    property throws. *)
Lemma checkGrain_nullish (t : tape) (obj : jsval) :
  nullish obj = true →
  checkGrain grain Grain ptpSync ptpOrigin flow_id source_id duration coerced_gt0
    t obj = Throw "TypeError".
Proof. by destruct obj. Qed.
End GrainClass.

(** A grain message that has a property named [hasOwnProperty] of its
    own, next to all that a grain message holds: [checkGrain] throws, and
    returns no grain. *)
Lemma checkGrain_hasOwnProperty_hidden :
  assoc "payloadCount" (("hasOwnProperty", JNum 1) :: grain_fields) = Some (JNum 1)
  ∧ checkGrain plain_grain plainGrain pg_ptpSync pg_ptpOrigin pg_flow_id
      pg_source_id pg_duration coerced_NaN []
      (JObj (("hasOwnProperty", JNum 1) :: grain_fields))
    = Throw "TypeError".
Proof. split; reflexivity. Qed.

Lemma checkGrain_asserts_witness :
  ∃ t g,
    checkGrain plain_grain plainGrain pg_ptpSync pg_ptpOrigin pg_flow_id
      pg_source_id pg_duration coerced_NaN [] (JObj grain_fields) = Ok (t, g)
    ∧ forallb passed t = true.
Proof.
  destruct (checkGrain_asserts plain_grain plainGrain pg_ptpSync pg_ptpOrigin
              pg_flow_id pg_source_id pg_duration coerced_NaN [] grain_fields true)
    as [Hchecked _]; [reflexivity|].
  eexists _, _. split; [apply Hchecked; reflexivity | reflexivity].
Defined.

(** ** The staging directory *)

Open Scope nat_scope.

Lemma dirname_join p name : dirname (join p name) = p.
Proof.
  unfold dirname, join. rewrite length_app. simpl.
  replace (length p + 1 - 1) with (length p) by lia.
  by rewrite take_app_length.
Qed.

Lemma wf_parent fs p name :
  wf fs → is_Some (fs !! join p name) → fs !! p = Some Dir.
Proof.
  intros Hwf [k Hk]. destruct (Hwf _ _ Hk) as [Hnil | Hdir].
  - unfold join in Hnil. by destruct p.
  - by rewrite dirname_join in Hdir.
Qed.

(** An entry has all its ancestors. *)
Lemma wf_ancestor fs p k :
  wf fs → is_Some (fs !! (p ++ k)) → is_Some (fs !! p).
Proof.
  intros Hwf. induction k as [|name k IH] using rev_ind.
  - by rewrite (right_id_L [] (++)).
  - rewrite (assoc_L (++)). intros Hk. apply IH.
    apply (wf_parent _ _ name) in Hk; [|done]. by rewrite Hk.
Qed.

(** Nothing lies below a file. *)
Lemma wf_below_file fs p q :
  wf fs → fs !! p = Some File → p `prefix_of` q → q ≠ p → fs !! q = None.
Proof.
  intros Hwf Hp [k ->] Hne. destruct k as [|name k].
  { by rewrite (right_id_L [] (++)) in Hne. }
  destruct (fs !! (p ++ name :: k)) as [x|] eqn:Hq; [|done].
  assert (is_Some (fs !! join p name)) as Hs.
  { apply (wf_ancestor _ _ k); [done|]. unfold join.
    rewrite <-(assoc_L (++)). simpl. by rewrite Hq. }
  apply wf_parent in Hs; [congruence|done].
Qed.

Lemma entry_name_Some dir p name :
  entry_name dir p = Some name ↔ p = join dir name.
Proof.
  unfold join. revert p. induction dir as [|d dir IH]; intros p; simpl.
  - destruct p as [|c [|c' p]]; split; intros H; try done.
    + by injection H as ->.
    + by injection H as ->.
  - destruct p as [|c p]; [by split|].
    case_decide as Hdc.
    + subst c. rewrite IH. split; [by intros ->|]. by intros [= ->].
    + split; [done|]. intros [= -> _]. by destruct Hdc.
Qed.

Lemma elem_of_entries dir fs name :
  name ∈ entries dir fs ↔ is_Some (fs !! join dir name).
Proof.
  unfold entries. rewrite list_elem_of_omap. split.
  - intros [[p k] [Hin Hname]]. simpl in Hname.
    apply entry_name_Some in Hname as ->.
    apply elem_of_map_to_list in Hin. eauto.
  - intros [k Hk]. exists (join dir name, k). split.
    + by apply elem_of_map_to_list.
    + by apply entry_name_Some.
Qed.

Lemma NoDup_entries dir fs : NoDup (entries dir fs).
Proof.
  unfold entries.
  pose proof (NoDup_fst_map_to_list fs) as Hnd.
  induction (map_to_list fs) as [|[p k] l IH]; simpl; [constructor|].
  rewrite fmap_cons in Hnd. apply NoDup_cons in Hnd as [Hp Hnd].
  destruct (entry_name dir p) as [name|] eqn:Hname; simpl; [|by apply IH].
  apply NoDup_cons. split; [|by apply IH].
  rewrite list_elem_of_omap. intros [[p' k'] [Hin Hname']]. simpl in *.
  apply entry_name_Some in Hname as ->. apply entry_name_Some in Hname' as ->.
  apply Hp. apply list_elem_of_fmap. by exists (join dir name, k').
Qed.

Lemma prefix_join_inv dir name q :
  join dir name `prefix_of` q → dir `prefix_of` q.
Proof.
  intros [k ->]. unfold join. exists ([name] ++ k). by rewrite <-(assoc_L (++)).
Qed.

Lemma prefix_join_join dir n1 n2 :
  join dir n1 `prefix_of` join dir n2 → n1 = n2.
Proof.
  unfold join. intros [k Hk]. rewrite <-(assoc_L (++)) in Hk.
  apply (inj (dir ++.)) in Hk. simpl in Hk. by injection Hk.
Qed.

Lemma not_prefix_join dir name : ¬ join dir name `prefix_of` dir.
Proof.
  intros Hp. apply prefix_length in Hp. unfold join in Hp.
  rewrite length_app in Hp. simpl in Hp. lia.
Qed.

Lemma lookup_without dir fs q :
  without dir fs !! q = if decide (dir `prefix_of` q) then None else fs !! q.
Proof.
  unfold without. rewrite map_lookup_filter.
  destruct (fs !! q) as [k|]; simpl; [|by case_decide].
  case_decide.
  - rewrite option_guard_False; [done|]. simpl. tauto.
  - by rewrite option_guard_True.
Qed.

Lemma lookup_without_is_Some dir fs q :
  is_Some (without dir fs !! q) → is_Some (fs !! q).
Proof. rewrite lookup_without. case_decide; [by intros [? ?]|done]. Qed.

Lemma wf_without dir fs : wf fs → wf (without dir fs).
Proof.
  intros Hwf p k Hp. rewrite lookup_without in Hp.
  case_decide as Hpre; [done|].
  destruct (Hwf _ _ Hp) as [->|Hdir]; [by left|right].
  rewrite lookup_without. case_decide as Hpre'; [|done].
  destruct Hpre. etrans; [done|]. unfold dirname. apply prefix_take.
Qed.

(** Unlinking a file is removing all there is at and below its path. *)
Lemma unlink_file fs p :
  wf fs → fs !! p = Some File → unlink p fs = Ok (without p fs).
Proof.
  intros Hwf Hp. unfold unlink. rewrite Hp. f_equal.
  apply map_eq. intros q. rewrite lookup_without.
  destruct (decide (q = p)) as [->|Hne].
  - rewrite lookup_delete_eq. by rewrite decide_True.
  - rewrite lookup_delete_ne by done. case_decide; [|done].
    by apply (wf_below_file _ p).
Qed.

Lemma shallow_without n dir fs : shallow n fs → shallow n (without dir fs).
Proof. intros Hb q Hq. apply Hb. by eapply lookup_without_is_Some. Qed.

Lemma shallow_depth fs : shallow (depth fs) fs.
Proof.
  intros q [k Hq]. unfold depth.
  pose proof (proj1 (list_max_le (length <$> (map_to_list fs).*1) _) (le_n _))
    as Hall.
  assert (length q ∈ length <$> (map_to_list fs).*1) as Hin.
  { apply list_elem_of_fmap. exists q. split; [done|].
    apply list_elem_of_fmap. exists (q, k). split; [done|].
    by apply elem_of_map_to_list. }
  apply list_elem_of_In in Hin.
  apply (proj1 (List.Forall_forall _ _) Hall) in Hin. lia.
Qed.

Lemma shallow_le n m fs : n ≤ m → shallow n fs → shallow m fs.
Proof. intros Hnm Hb q Hq. apply Hb in Hq. lia. Qed.

(** Handling the entries of [dir] one after the other, with a callback that
    removes each of them whole, leaves the tree without any of them. *)
Section Entries.
Variable dir : path.
Variable f : string → gmap path kind → option (result (gmap path kind)).
Variable n : nat.
Hypothesis f_removes : ∀ name fs,
  wf fs → shallow n fs → is_Some (fs !! join dir name) →
  f name fs = Some (Ok (without (join dir name) fs)).

Lemma all_removes names fs :
  NoDup names → wf fs → shallow n fs →
  (∀ name, name ∈ names → is_Some (fs !! join dir name)) →
  ∃ fs', all f names fs = Some (Ok fs') ∧
    ∀ q, fs' !! q =
      if decide (Exists (λ name, join dir name `prefix_of` q) names)
      then None else fs !! q.
Proof.
  revert fs.
  induction names as [|name names IH]; intros fs Hnd Hwf Hb Hin; cbn [all].
  - exists fs. split; [done|]. intros q.
    case_decide as Hex; [by apply Exists_nil in Hex|done].
  - apply NoDup_cons in Hnd as [Hname Hnd].
    rewrite f_removes; [|done|done|apply Hin; left].
    destruct (IH (without (join dir name) fs)) as (fs' & -> & Hfs'); [done| | | |].
    + by apply wf_without.
    + by apply shallow_without.
    + intros name' Hin'. rewrite lookup_without. rewrite decide_False.
      * apply Hin. by right.
      * intros Hp. apply prefix_join_join in Hp. by subst.
    + exists fs'. split; [done|]. intros q. rewrite Hfs', lookup_without.
      destruct (decide (Exists _ names)) as [Hl|Hl];
        destruct (decide (join dir name `prefix_of` q)) as [Hq|Hq];
        destruct (decide (Exists _ (name :: names))) as [Hc|Hc]; try done.
      * destruct Hc. by right.
      * destruct Hc. by right.
      * destruct Hc. by left.
      * apply Exists_cons in Hc as [?|?]; done.
Qed.
End Entries.

(** One level of [rimraf], with [r] for the recursive call: once every
    entry of [dir] is handled, [dir] is empty and [rmdir] removes it, which
    leaves the tree without [dir] and all below it. *)
Lemma rimraf_level (r : path → gmap path kind → option (result (gmap path kind)))
    n dir fs :
  wf fs → fs !! dir = Some Dir → shallow n fs →
  (∀ name fs0, wf fs0 → shallow n fs0 → fs0 !! join dir name = Some Dir →
     r (join dir name) fs0 = Some (Ok (without (join dir name) fs0))) →
  ∃ fs1,
    all (remove_entry r dir) (entries dir fs) fs = Some (Ok fs1)
    ∧ entries dir fs1 = []
    ∧ rmdir dir fs1 = Ok (without dir fs).
Proof.
  intros Hwf Hdir Hb Hr.
  destruct (all_removes dir (remove_entry r dir) n) with (names := entries dir fs)
    (fs := fs) as (fs1 & Hall & Hfs1);
    [|apply NoDup_entries|done|done|by intros name; rewrite elem_of_entries|].
  { intros name fs0 Hwf0 Hb0 [k Hk]. unfold remove_entry, lstat. rewrite Hk.
    destruct k; simpl; [f_equal; by apply unlink_file|by apply Hr]. }
  exists fs1. split; [done|].
  assert (fs1 !! dir = Some Dir) as Hdir1.
  { rewrite Hfs1. rewrite decide_False; [done|].
    rewrite Exists_exists. intros (name & _ & Hp). by apply not_prefix_join in Hp. }
  assert (entries dir fs1 = []) as Hnil.
  { destruct (entries dir fs1) as [|name l] eqn:He; [done|].
    assert (name ∈ entries dir fs1) as Hin by (rewrite He; left).
    apply elem_of_entries in Hin as Hs. rewrite Hfs1 in Hs.
    case_decide as Hex; [by destruct Hs|].
    destruct Hex. apply Exists_exists. exists name. split; [|done].
    by apply elem_of_entries. }
  split; [done|].
  unfold rmdir. rewrite Hdir1, Hnil. f_equal.
  apply map_eq. intros q. rewrite lookup_without.
  destruct (decide (q = dir)) as [->|Hne].
  { rewrite lookup_delete_eq. by rewrite decide_True. }
  rewrite lookup_delete_ne by done. rewrite Hfs1.
  case_decide as Hex; case_decide as Hpre; try done.
  - apply Exists_exists in Hex as (name & _ & Hp).
    destruct Hpre. by apply prefix_join_inv in Hp.
  - destruct Hpre as [k ->]. destruct k as [|name k].
    { by rewrite (right_id_L [] (++)) in Hne. }
    destruct (fs !! (dir ++ name :: k)) as [x|] eqn:Hq; [|done].
    destruct Hex. apply Exists_exists. exists name. split.
    + apply elem_of_entries. apply (wf_ancestor _ _ k); [done|].
      unfold join. rewrite <-(assoc_L (++)). simpl. by rewrite Hq.
    + exists k. unfold join. by rewrite <-(assoc_L (++)).
Qed.

(** With fuel for the paths there are, [rimraf] on a directory ends and
    leaves the tree without it. *)
Lemma rimraf_removes fuel : ∀ dir fs,
  wf fs → fs !! dir = Some Dir → shallow (fuel + length dir) fs →
  rimraf fuel dir fs = Some (Ok (without dir fs)).
Proof.
  induction fuel as [|fuel IH]; intros dir fs Hwf Hdir Hb.
  { assert (length dir < 0 + length dir) by (apply Hb; by rewrite Hdir). lia. }
  destruct (rimraf_level (rimraf fuel) (S fuel + length dir) dir fs)
    as (fs1 & Hall & _ & Hrm); [done|done|done| |].
  { intros name fs0 Hwf0 Hb0 Hk. apply IH; [done|done|].
    intros q Hq. apply Hb0 in Hq. unfold join. rewrite length_app. simpl. lia. }
  simpl. unfold exists_, readdir. rewrite Hdir.
  rewrite bool_decide_eq_true_2 by eauto. by rewrite Hall, Hrm.
Qed.

(** C6.  On a path at which there is nothing, [rimraf] ends at once, with
    success, and leaves the tree as it is. *)
Theorem rimraf_absent fuel dir fs :
  exists_ dir fs = false → rimraf (S fuel) dir fs = Some (Ok fs).
Proof. intros Habsent. simpl. by rewrite Habsent. Qed.

Lemma rimraf_absent_witness :
  rimraf 1 ["test"; "downloads"] staged = Some (Ok staged).
Proof. apply (rimraf_absent 0 ["test"; "downloads"] staged). reflexivity. Defined.

(** C8.  On a directory, [rimraf] handles every entry the directory has,
    each by [lstat] and then the recursive call for a directory, [unlink]
    for a file; that done the directory is empty, and [rmdir] removes it.
    The run ends with success, and the tree is left without the directory
    and all that was below it, and otherwise as it was. *)
Theorem rimraf_removes_tree fuel dir fs :
  wf fs → fs !! dir = Some Dir → depth fs ≤ S fuel →
  ∃ fs1,
    all (remove_entry (rimraf fuel) dir) (entries dir fs) fs = Some (Ok fs1)
    ∧ (∀ name fs0,
         remove_entry (rimraf fuel) dir name fs0 =
         match lstat (join dir name) fs0 with
         | Ok Dir => rimraf fuel (join dir name) fs0
         | Ok File => Some (unlink (join dir name) fs0)
         | Throw e => Some (Throw e)
         end)
    ∧ entries dir fs1 = []
    ∧ rimraf (S fuel) dir fs = Some (rmdir dir fs1)
    ∧ rmdir dir fs1 = Ok (without dir fs)
    ∧ exists_ dir (without dir fs) = false
    ∧ (∀ q, without dir fs !! q =
            if decide (dir `prefix_of` q) then None else fs !! q).
Proof.
  intros Hwf Hdir Hdepth.
  assert (shallow (S fuel + length dir) fs) as Hb.
  { apply (shallow_le (depth fs)); [lia|apply shallow_depth]. }
  destruct (rimraf_level (rimraf fuel) (S fuel + length dir) dir fs)
    as (fs1 & Hall & Hnil & Hrm); [done|done|done| |].
  { intros name fs0 Hwf0 Hb0 Hk. apply rimraf_removes; [done|done|].
    intros q Hq. apply Hb0 in Hq. unfold join. rewrite length_app. simpl. lia. }
  exists fs1. repeat split; try done.
  - intros name fs0. unfold remove_entry. by destruct (lstat _ _) as [[]|].
  - simpl. unfold exists_, readdir. rewrite Hdir.
    rewrite bool_decide_eq_true_2 by eauto. by rewrite Hall.
  - unfold exists_. apply bool_decide_eq_false_2. rewrite lookup_without.
    rewrite decide_True by done. by intros [? ?].
  - intros q. apply lookup_without.
Qed.

Lemma rimraf_removes_tree_witness :
  rimraf 5 ["test"; "tmp"] staged
  = Some (Ok (list_to_map [([], Dir); (["test"], Dir);
                           (["test"; "testUtil.js"], File)])).
Proof.
  destruct (rimraf_removes_tree 4 ["test"; "tmp"] staged)
    as (fs1 & _ & _ & _ & Hrimraf & Hrmdir & _).
  - apply (bool_decide_unpack (wf staged)). vm_compute. exact I.
  - vm_compute. reflexivity.
  - vm_compute. lia.
  - rewrite Hrimraf, Hrmdir. vm_compute. reflexivity.
Defined.

(** ** [download] *)

Section Staging.
Variable __dirname : path.
Variable getUri : string → result string.

(** C7.  [download] makes the staging directory where there is none; a
    [mkdir] that fails with [EEXIST], as it does when the directory is
    there, is passed over and the download goes on in the tree as it is; a
    [mkdir] that fails with any other code ends [download] with that
    error. *)
Theorem download_staging fault uri file fs :
  let tmp := join __dirname "tmp" in
  let fetch fs := getUri uri ≫= λ _, write_file (join tmp file) fs in
  (fault = None → fs !! tmp = None → fs !! __dirname = Some Dir →
     mkdir fault tmp fs = Ok (<[tmp := Dir]> fs)
     ∧ download __dirname getUri fault uri file fs = fetch (<[tmp := Dir]> fs))
  ∧ (fault = None → is_Some (fs !! tmp) → mkdir fault tmp fs = Throw "EEXIST")
  ∧ (mkdir fault tmp fs = Throw "EEXIST" →
       download __dirname getUri fault uri file fs = fetch fs)
  ∧ (∀ code, mkdir fault tmp fs = Throw code → code ≠ "EEXIST" →
       download __dirname getUri fault uri file fs = Throw code).
Proof.
  intros tmp fetch. subst tmp fetch.
  assert (fault = None → fs !! join __dirname "tmp" = None →
          fs !! __dirname = Some Dir →
          mkdir fault (join __dirname "tmp") fs
          = Ok (<[join __dirname "tmp" := Dir]> fs)) as Hmade.
  { intros -> Hnone Hdir. unfold mkdir, exists_.
    rewrite bool_decide_eq_false_2 by (rewrite Hnone; by intros [? ?]).
    by rewrite dirname_join, Hdir. }
  split; [|split; [|split]].
  - intros Hfault Hnone Hdir. split; [by apply Hmade|].
    unfold download. by rewrite Hmade.
  - intros -> Hthere. unfold mkdir, exists_. by rewrite bool_decide_eq_true_2.
  - intros Hmk. unfold download. by rewrite Hmk.
  - intros code Hmk Hcode. unfold download. rewrite Hmk.
    by destruct (String.eqb_spec code "EEXIST").
Qed.
End Staging.

Lemma download_staging_witness :
  download ["test"] (λ _, Ok "RIFF") None "http://localhost/tone.wav" "tone.wav"
    (delete ["test"; "tmp"] (without ["test"; "tmp"] staged))
  = Ok (<[ ["test"; "tmp"; "tone.wav"] := File ]>
         (<[ ["test"; "tmp"] := Dir ]> (without ["test"; "tmp"] staged)))
  ∧ download ["test"] (λ _, Ok "RIFF") (Some "EACCES") "http://localhost/tone.wav"
      "tone.wav" staged = Throw "EACCES".
Proof.
  split.
  - destruct (download_staging ["test"] (λ _, Ok "RIFF") None
                "http://localhost/tone.wav" "tone.wav"
                (delete ["test"; "tmp"] (without ["test"; "tmp"] staged)))
      as (Hcreated & _).
    destruct Hcreated as [_ ->]; [reflexivity|vm_compute; reflexivity
                                 |vm_compute; reflexivity|].
    vm_compute. reflexivity.
  - apply (download_staging ["test"] (λ _, Ok "RIFF") (Some "EACCES")
             "http://localhost/tone.wav" "tone.wav" staged).
    + reflexivity.
    + discriminate.
Defined.

(** * Further properties *)

Open Scope Z_scope.

(** ** [adminApiReq]: what the log shows *)

(** X1.  The assertions of a request all pass exactly when it is answered
    with the expected status and, for a 200, with a content type that
    starts with [application/json]. *)
Theorem adminApiReq_passes {K} (method path : string) (response : Z)
    (onError : K) (cb : jsval → K) (o : outcome) :
  forallb passed (adminApiReq_outcome method path response onError cb o).1 = true
  ↔ ∃ statusCode contentType parsed,
      o = Response statusCode contentType parsed
      ∧ statusCode = response
      ∧ (statusCode = 200 → is_json contentType = true).
Proof.
  destruct o as [statusCode contentType parsed|message]; simpl.
  2:{ split; [done|]. by intros (? & ? & ? & ? & _). }
  unfold adminApiReq_response, equal.
  destruct (Z.eqb_spec 200 statusCode) as [H200|H200];
    destruct (Z.eqb_spec 204 statusCode) as [H204|H204]; try lia;
    try subst statusCode;
    cbn [negb orb fst forallb passed app]; rewrite ?andb_true_r.
  - rewrite andb_true_iff, Z.eqb_eq. split.
    + intros [<- Hjson]. by eexists _, _, _.
    + intros (? & ? & ? & [= <- <- <-] & <- & Hjson). split; [done|]. by apply Hjson.
  - rewrite Z.eqb_eq. split.
    + intros <-. eexists _, _, _. split; [done|]. split; [done|]. lia.
    + by intros (? & ? & ? & [= <- <- <-] & <- & _).
  - rewrite Z.eqb_eq. split.
    + intros <-. eexists _, _, _. split; [done|]. split; [done|]. lia.
    + by intros (? & ? & ? & [= <- <- <-] & <- & _).
Qed.

Lemma adminApiReq_passes_witness :
  forallb passed
    (adminApiReq_outcome "POST" "/flow" 200 OnError Cb
       (Response 200 (Some "application/json; charset=utf-8")
          (Some (JObj [("id", JStr "91ad451.f6e52b8")])))).1 = true.
Proof.
  apply (adminApiReq_passes "POST" "/flow" 200 OnError Cb).
  eexists _, _, _. split; [reflexivity|]. split; [reflexivity|]. reflexivity.
Defined.

(** X2.  For a request that expects a 200 or a 204, the error callback
    never runs without a failed assertion in the log. *)
Theorem adminApiReq_abort_logged (method path : string) (response : Z)
    (o : outcome) :
  response = 200 ∨ response = 204 →
  (adminApiReq_outcome method path response OnError Cb o).2 = Ok OnError →
  ∃ msg, Assert false msg ∈ (adminApiReq_outcome method path response OnError Cb o).1.
Proof.
  intros Hresp. destruct o as [statusCode contentType parsed|message]; simpl.
  2:{ intros _. eexists. by left. }
  unfold adminApiReq_response, equal.
  destruct (Z.eqb_spec 200 statusCode) as [H200|H200];
    destruct (Z.eqb_spec 204 statusCode) as [H204|H204]; try lia;
    try subst statusCode;
    cbn [negb orb fst snd].
  - destruct parsed; done.
  - done.
  - intros _. destruct (Z.eqb_spec statusCode response); [lia|].
    eexists. by left.
Qed.

Lemma adminApiReq_abort_logged_witness :
  ∃ msg, Assert false msg ∈
    (adminApiReq_outcome "POST" "/flow" 200 OnError Cb
       (Response 500 (Some "text/html") None)).1.
Proof.
  apply adminApiReq_abort_logged; [by left|reflexivity].
Defined.

(** ** [postFlow]: the answer to the POST *)

(** What no callback of [deleteFlow] touches. *)
Lemma call_finalizer_frame k arg s :
  finalizer k →
  ∃ s', call k arg s = Ok s' ∧ doneCalls s' = S (doneCalls s)
        ∧ pending s' = pending s ∧ flowId s' = flowId s
        ∧ timeout s' = timeout s ∧ prm s' = prm s ∧ t s' = t s
        ∧ lastCount s' = lastCount s.
Proof. destruct k; simpl; try done; intros _; eexists; by repeat split. Qed.

Lemma deleteFlow_frame fid cb s :
  finalizer cb →
  ∃ s', deleteFlow fid cb s = Ok s'
    ∧ flowId s' = flowId s ∧ timeout s' = timeout s ∧ prm s' = prm s
    ∧ lastCount s' = lastCount s
    ∧ (doneCalls s ≤ doneCalls s' ≤ S (doneCalls s))%nat
    ∧ (pending s' = pending s
       ∨ pending s' = pending s ++
           [Request "DELETE" ("/flow/" +:+ ToString fid) (testFlowDel fid) 204 cb cb]).
Proof.
  intros Hcb. unfold deleteFlow. destruct (truthy (keepFlow (prm s))).
  - destruct (call_finalizer_frame cb JUndefined
                (tell [comment "!!! NOT deleting test flow !!!"] s) Hcb)
      as (s' & -> & Hd & Hp & Hf & Ht & Hprm & _ & Hl).
    exists s'. split; [done|]. rewrite Hd, Hp, Hf, Ht, Hprm, Hl.
    repeat split; try done; try (simpl; lia). by left.
  - eexists. split; [done|]. repeat split; try done; try (simpl; lia). by right.
Qed.

Lemma clearInterval_lookup id s period active :
  intervals s !! id = Some (Interval period active) →
  intervals (clearInterval id s) !! id = Some (Interval period false).
Proof. intros Hiv. simpl. rewrite list_lookup_alter_eq, Hiv. reflexivity. Qed.

Lemma clearInterval_lookup_ne id j s :
  j ≠ id → intervals (clearInterval id s) !! j = intervals s !! j.
Proof. intros Hne. simpl. by rewrite list_lookup_alter_ne. Qed.

Section Run.
Variable onMsg : tape → params → jsval → handled.

Lemma run_cons s e es :
  run onMsg s (e :: es) = step onMsg s e ≫= λ s', run onMsg s' es.
Proof. reflexivity. Qed.

(** Without a flow and without a request outstanding, nothing listens. *)
Lemma idle_run s es :
  flowId s = None → pending s = [] → run onMsg s es = Ok s.
Proof.
  intros Hflow Hpend. induction es as [|e es IH]; [done|].
  rewrite run_cons.
  assert (step onMsg s e = Ok s) as ->; [|done].
  destruct e; simpl; rewrite ?Hflow, ?Hpend; done.
Qed.

(** X3.  When the POST fails (a status other than 200 and 204, or no
    response), the test is finished with one call of [done] after one
    failed assertion, and nothing that happens later reaches it: no
    connection is listened to, no interval is made, [done] is not called
    again. *)
Theorem postFlow_post_failed t0 p flow o :
  failed o →
  ∃ s, step onMsg (postFlow t0 p flow) (Answered 0 o) = Ok s
    ∧ doneCalls s = 1%nat
    ∧ (∃ msg, t s = t0 ++ [Assert false msg])
    ∧ ∀ es, run onMsg s es = Ok s.
Proof.
  intros Hfailed. destruct o as [statusCode contentType parsed|message].
  - destruct Hfailed as [H200 H204]. simpl.
    unfold adminApiReq_response.
    destruct (Z.eqb_spec 200 statusCode); [lia|].
    destruct (Z.eqb_spec 204 statusCode); [lia|]. simpl.
    eexists. split; [done|]. split; [done|]. split.
    + unfold equal. destruct (Z.eqb_spec statusCode 200); [lia|]. by eexists.
    + intros es. by apply idle_run.
  - simpl. eexists. split; [done|]. split; [done|]. split; [by eexists|].
    intros es. by apply idle_run.
Qed.

(** X4.  A POST answered 204, or 200 with the body [null], ends the run
    with a [TypeError]: the callback reads [res.id] of [null] before it
    does anything else.  When the exception is thrown the assertions on the
    response are all that the log has got, [params] is as the test passed
    it in, no flow id is kept and no interval made, nothing is outstanding,
    and [done] has not been called. *)
Theorem postFlow_null_response t0 p flow contentType :
  (∀ parsed es,
     ∃ s, run onMsg (postFlow t0 p flow)
            (Answered 0 (Response 204 contentType parsed) :: es)
          = Throw ("TypeError", s)
       ∧ t s = t0 ++ [Assert false "status code is Success"]
       ∧ doneCalls s = 0%nat ∧ flowId s = None ∧ pending s = []
       ∧ intervals s = [] ∧ prm s = p)
  ∧ (∀ res es, nullish res = true →
     ∃ s, run onMsg (postFlow t0 p flow)
            (Answered 0 (Response 200 contentType (Some res)) :: es)
          = Throw ("TypeError", s)
       ∧ t s = t0 ++ [Assert true "status code is Success";
                      Assert (is_json contentType) "content type is application/json"]
       ∧ doneCalls s = 0%nat ∧ flowId s = None ∧ pending s = []
       ∧ intervals s = [] ∧ prm s = p).
Proof.
  split.
  - intros parsed es. eexists. split; [reflexivity|]. by repeat split.
  - intros res es Hnull. eexists. split; [by destruct res|].
    by repeat split.
Qed.

(** The state a 200 answer to the POST leaves. *)
Lemma created_state t0 p flow contentType res id :
  get res "id" = Ok id →
  step onMsg (postFlow t0 p flow) (Answered 0 (Response 200 contentType (Some res)))
  = Ok (State (t0 ++ [Assert true "status code is Success";
                      Assert (is_json contentType) "content type is application/json";
                      Assert (truthy id) "response has flow id"])
              (set_count 0 p) (Some id) (-1) false false
              (or_else (flowTimeout p) (JNum 1000)) [] [] 0).
Proof.
  intros Hid. cbn [step postFlow adminApiReq set_pending pending lookup].
  simpl. rewrite Hid. cbn [mbind result_bind].
  cbv [set_flowId set_timeout set_doneClosedown set_endReceived set_lastCount
       set_prm tell set_t set_pending postFlow adminApiReq
       t prm flowId lastCount endReceived doneClosedown timeout intervals pending
       doneCalls throw_in mbind result_bind].
  rewrite <-!(assoc_L (++)). reflexivity.
Qed.

(** X5.  A POST answered 200 with a body other than [null] starts the
    test, whatever the body holds: the count the test passed in is set to 0,
    the last count to -1, the period of the checks to [flowTimeout] if that
    is truthy and to 1000 otherwise; nothing is outstanding, no interval is
    made yet, [done] is not called, and a body without an [id] only fails an
    assertion. *)
Theorem postFlow_created t0 p flow contentType res :
  nullish res = false →
  ∃ s id,
    get res "id" = Ok id
    ∧ step onMsg (postFlow t0 p flow) (Answered 0 (Response 200 contentType (Some res)))
      = Ok s
    ∧ t s = t0 ++ [Assert true "status code is Success";
                   Assert (is_json contentType) "content type is application/json";
                   Assert (truthy id) "response has flow id"]
    ∧ flowId s = Some id
    ∧ prm s = set_count 0 p
    ∧ lastCount s = -1
    ∧ timeout s = (if truthy (flowTimeout p) then flowTimeout p else JNum 1000)
    ∧ doneCalls s = 0%nat
    ∧ running s
    ∧ pending s = []
    ∧ intervals s = []
    ∧ endReceived s = false
    ∧ doneClosedown s = false
    ∧ keepFlow (prm s) = keepFlow p
    ∧ flowTimeout (prm s) = flowTimeout p.
Proof.
  intros Hres.
  assert (∃ id, get res "id" = Ok id) as [id Hid]
    by (destruct res; try discriminate Hres; by eexists).
  eexists _, id. split; [done|].
  split; [by apply created_state|].
  do 6 (split; [reflexivity|]). split; [|by repeat split].
  exists id. split; [done|]. apply Forall_nil_2.
Qed.

(** A check that finds the count changed. *)
Lemma tick_records s fid id period :
  flowId s = Some fid → intervals s !! id = Some (Interval period true) →
  doneClosedown s = false → count (prm s) ≠ lastCount s →
  step onMsg s (Tick id) = Ok (set_lastCount (count (prm s)) s).
Proof.
  intros Hfid Hiv Hdone Hc. simpl. rewrite Hfid, Hiv.
  unfold checkCompleted. rewrite Hdone. by apply Z.eqb_neq in Hc as ->.
Qed.

(** A check that finds the count unchanged, in a test that deletes its
    flow. *)
Lemma tick_sends s fid id period :
  flowId s = Some fid → intervals s !! id = Some (Interval period true) →
  doneClosedown s = false → count (prm s) = lastCount s →
  truthy (keepFlow (prm s)) = false →
  ∃ s', step onMsg s (Tick id) = Ok s'
    ∧ pending s' = pending s ++
        [Request "DELETE" ("/flow/" +:+ ToString fid) (testFlowDel fid) 204
                 (KOnComplete id) (KOnComplete id)]
    ∧ doneCalls s' = doneCalls s ∧ doneClosedown s' = true
    ∧ intervals s' = intervals s ∧ flowId s' = flowId s.
Proof.
  intros Hfid Hiv Hdone Hc Hkeep. simpl. rewrite Hfid, Hiv.
  unfold checkCompleted. rewrite Hdone. apply Z.eqb_eq in Hc as ->.
  unfold deleteFlow. change (prm (tell ?a (tell ?b (tell ?c s)))) with (prm s).
  rewrite Hkeep. eexists. split; [reflexivity|]. by repeat split.
Qed.

(** X6.  When the body of the 200 has no [id], the test goes on with the
    flow id [undefined]: after a connection and two checks without a
    message, the DELETE it sends is for [/flow/undefined]. *)
Theorem postFlow_missing_id t0 p flow contentType fields readyState :
  assoc "id" fields = None →
  truthy (keepFlow p) = false →
  ∃ s s',
    step onMsg (postFlow t0 p flow)
      (Answered 0 (Response 200 contentType (Some (JObj fields)))) = Ok s
    ∧ t s = t0 ++ [Assert true "status code is Success";
                   Assert (is_json contentType) "content type is application/json";
                   Assert false "response has flow id"]
    ∧ flowId s = Some JUndefined
    ∧ doneCalls s = 0%nat
    ∧ run onMsg s [Connection readyState; Tick 0; Tick 0] = Ok s'
    ∧ pending s' =
        [Request "DELETE" "/flow/undefined" (testFlowDel JUndefined) 204
                 (KOnComplete 0) (KOnComplete 0)].
Proof.
  intros Hid Hkeep.
  pose proof (created_state t0 p flow contentType (JObj fields) JUndefined) as Hs.
  cbn [get] in Hs. rewrite Hid in Hs. specialize (Hs eq_refl).
  set (s := State _ _ _ _ _ _ _ _ _ _) in Hs.
  set (s1 := on_connection readyState s).
  assert (step onMsg s1 (Tick 0) = Ok (set_lastCount 0 s1)) as H1.
  { apply (tick_records s1 JUndefined 0 (or_else (flowTimeout p) (JNum 1000)));
      reflexivity || (cbn; lia). }
  destruct (tick_sends (set_lastCount 0 s1) JUndefined 0
              (or_else (flowTimeout p) (JNum 1000)))
    as (s' & H2 & Hp & _); [reflexivity..|by destruct p|].
  exists s, s'. split; [exact Hs|]. split; [reflexivity|].
  split; [reflexivity|]. split; [reflexivity|]. split; [|exact Hp].
  assert (step onMsg s (Connection readyState) = Ok s1) as H0 by reflexivity.
  rewrite run_cons, H0. cbn [mbind result_bind].
  rewrite run_cons, H1. cbn [mbind result_bind].
  by rewrite run_cons, H2.
Qed.
End Run.

Lemma postFlow_post_failed_witness :
  ∃ s, step counting (postFlow [] params0 "{}")
         (Answered 0 (RequestError "connect ECONNREFUSED")) = Ok s
    ∧ doneCalls s = 1%nat
    ∧ run counting s [Connection OPEN; Tick 0] = Ok s.
Proof.
  destruct (postFlow_post_failed counting [] params0 "{}"
              (RequestError "connect ECONNREFUSED") I) as (s & Hs & Hd & _ & Hrun).
  exists s. split; [exact Hs|]. split; [exact Hd|apply Hrun].
Defined.

Lemma postFlow_null_response_witness :
  ∃ s, run counting (postFlow [] params0 "{}")
         [Answered 0 (Response 200 (Some "application/json") (Some JNull));
          Connection OPEN]
       = Throw ("TypeError", s)
    ∧ doneCalls s = 0%nat.
Proof.
  destruct (proj2 (postFlow_null_response counting [] params0 "{}"
                     (Some "application/json")) JNull [Connection OPEN] eq_refl)
    as (s & Hs & _ & Hd & _).
  exists s. split; [exact Hs|exact Hd].
Defined.

Lemma postFlow_created_witness :
  ∃ s, step counting (postFlow [] (Params 7 (JNum 250) JUndefined) "{}") created = Ok s
    ∧ flowId s = Some (JStr "91ad451.f6e52b8")
    ∧ count (prm s) = 0
    ∧ timeout s = JNum 250.
Proof.
  destruct (postFlow_created counting [] (Params 7 (JNum 250) JUndefined) "{}"
              (Some "application/json; charset=utf-8")
              (JObj [("id", JStr "91ad451.f6e52b8")]) eq_refl)
    as (s & id & Hid & Hs & _ & Hflow & Hprm & _ & Htimeout & _).
  injection Hid as <-.
  exists s. split; [exact Hs|]. split; [exact Hflow|].
  split; [by rewrite Hprm|exact Htimeout].
Defined.

Lemma postFlow_missing_id_witness :
  ∃ s s',
    step counting (postFlow [] params0 "{}")
      (Answered 0 (Response 200 (Some "application/json")
                     (Some (JObj [("label", JStr "Test Flow")])))) = Ok s
    ∧ run counting s [Connection OPEN; Tick 0; Tick 0] = Ok s'
    ∧ pending s' =
        [Request "DELETE" "/flow/undefined" (testFlowDel JUndefined) 204
                 (KOnComplete 0) (KOnComplete 0)].
Proof.
  destruct (postFlow_missing_id counting [] params0 "{}" (Some "application/json")
              [("label", JStr "Test Flow")] OPEN eq_refl eq_refl)
    as (s & s' & Hs & _ & _ & _ & Hrun & Hpending).
  exists s, s'. split; [exact Hs|]. split; [exact Hrun|exact Hpending].
Defined.

(** ** [postFlow]: once the flow is created *)


Section Run.
Variable onMsg : tape → params → jsval → handled.

(** What the handler does leaves the flow id and the period alone, writes
    nothing but deletions, and calls [done] at most once for each call of
    the end continuation. *)
Lemma acts_frame fid id l : ∀ s,
  ∃ s', acts fid id l s = Ok s'
    ∧ flowId s' = flowId s ∧ timeout s' = timeout s
    ∧ (doneCalls s ≤ doneCalls s' ≤ doneCalls s + ends l)%nat
    ∧ ∃ rqs, pending s' = pending s ++ rqs ∧ Forall (deletion fid) rqs.
Proof.
  induction l as [|a l IH]; intros s.
  { exists s. split; [done|]. repeat split; try lia.
    exists []. by rewrite (right_id_L [] (++)). }
  cbn [acts]. destruct a as [x|p|]; cbn [act ends mbind result_bind].
  - destruct (IH (tell [x] s)) as (s' & -> & Hf & Ht & Hd & rqs & Hp & Hr).
    exists s'. do 3 (split; [done|]). split; [simpl in Hd; lia|]. by exists rqs.
  - destruct (IH (set_prm p s)) as (s' & -> & Hf & Ht & Hd & rqs & Hp & Hr).
    exists s'. do 3 (split; [done|]). split; [simpl in Hd; lia|]. by exists rqs.
  - unfold on_end.
    destruct (deleteFlow_frame fid (KEndDeleted id) (set_endReceived true s) I)
      as (s1 & -> & Hf1 & Ht1 & _ & _ & Hd1 & Hp1).
    cbn [mbind result_bind].
    destruct (IH s1) as (s' & -> & Hf & Ht & Hd & rqs & Hp & Hr).
    exists s'. split; [done|]. rewrite Hf, Ht, Hf1, Ht1.
    simpl in Hd1. repeat split; try done; try lia.
    destruct Hp1 as [Hp1|Hp1]; rewrite Hp, Hp1; simpl.
    + by exists rqs.
    + eexists (_ :: rqs). rewrite <-(assoc_L (++)). split; [done|].
      apply Forall_cons. split; [|done]. by exists (KEndDeleted id).
Qed.

(** One event, whether its listener returns or throws. *)
Lemma running_step s e :
  running s →
  running (final (step onMsg s e))
  ∧ flowId (final (step onMsg s e)) = flowId s
  ∧ timeout (final (step onMsg s e)) = timeout s
  ∧ (doneCalls s ≤ doneCalls (final (step onMsg s e))
     ≤ doneCalls s + calls onMsg s e)%nat.
Proof.
  intros (fid & Hfid & Hpend). rewrite Hfid.
  assert (∀ s1 n, flowId s1 = Some fid → timeout s1 = timeout s →
            (doneCalls s ≤ doneCalls s1 ≤ doneCalls s + n)%nat →
            (∃ rqs, pending s1 = pending s ++ rqs ∧ Forall (deletion fid) rqs) →
            running s1 ∧ flowId s1 = Some fid ∧ timeout s1 = timeout s
            ∧ (doneCalls s ≤ doneCalls s1 ≤ doneCalls s + n)%nat) as Hkeep.
  { intros s1 n Hf1 Ht1 Hd1 (rqs & Hp1 & Hr). split; [|done].
    exists fid. split; [congruence|]. rewrite Hp1. by apply Forall_app. }
  assert (∀ n, (doneCalls s ≤ doneCalls s ≤ doneCalls s + n)%nat) as Hsame
    by (intros; lia).
  assert (∃ rqs, pending s = pending s ++ rqs ∧ Forall (deletion fid) rqs) as Hnone
    by (exists []; by rewrite (right_id_L [] (++))).
  assert (running s ∧ flowId s = Some fid ∧ timeout s = timeout s
          ∧ (doneCalls s ≤ doneCalls s ≤ doneCalls s + calls onMsg s e)%nat) as Hidle
    by (by apply Hkeep).
  destruct e as [i o|readyState|id|id msg|id]; cbn [step calls].
  - destruct (pending s !! i) as [rq|] eqn:Hi; [|exact Hidle].
    pose proof (Forall_lookup_1 _ _ _ _ Hpend Hi) as (cb & Hcb & ->).
    cbn [rq_method rq_path rq_response rq_onError rq_cb].
    destruct (adminApiReq_outcome _ _ _ _ _ o) as [taps k] eqn:Ho.
    assert ((∃ arg, k = Ok (call cb arg)) ∨ ∃ err, k = Throw err) as Hk.
    { destruct o as [statusCode contentType parsed|message]; simpl in Ho.
      - unfold adminApiReq_response in Ho.
        destruct (negb _); [injection Ho as _ <-; left; by eexists|].
        destruct (204 =? statusCode); [injection Ho as _ <-; left; by eexists|].
        destruct parsed; injection Ho as _ <-; [left; by eexists|].
        right. by eexists.
      - injection Ho as _ <-. left. by eexists. }
    assert (running (tell taps (set_pending (delete i (pending s)) s))) as Hrun.
    { exists fid. split; [done|]. simpl. by apply Forall_delete. }
    destruct Hk as [[arg ->]|[err ->]]; cbn [throw_in mbind result_bind final].
    + destruct (call_finalizer_frame cb arg
                  (tell taps (set_pending (delete i (pending s)) s)) Hcb)
        as (s2 & -> & Hd & Hp & Hf & Ht & _).
      cbn [final]. split.
      * destruct Hrun as (fid' & Hfid' & Hpend'). exists fid'. by rewrite Hf, Hp.
      * rewrite Hf, Ht, Hd. split; [by simpl|]. split; [by simpl|]. simpl. lia.
    + split; [done|]. split; [by simpl|]. split; [by simpl|]. simpl. lia.
  - rewrite Hfid. cbn [final]. by apply Hkeep.
  - rewrite Hfid.
    destruct (intervals s !! id) as [[period [|]]|]; [|exact Hidle..].
    unfold checkCompleted. destruct (doneClosedown s).
    + cbn [call mbind result_bind final]. by apply Hkeep; [..|simpl; lia|].
    + destruct (count (prm s) =? lastCount s); cbn [mbind result_bind final];
        [|by apply Hkeep].
      match goal with
      | |- context [deleteFlow fid (KOnComplete id) ?s3] =>
          destruct (deleteFlow_frame fid (KOnComplete id) s3 I)
            as (s2 & -> & Hf & Ht & _ & _ & Hd & Hp)
      end.
      cbn [mbind result_bind final]. simpl in Hf, Ht, Hd, Hp.
      apply Hkeep; [simpl; congruence|simpl; congruence|simpl; lia|]. simpl.
      destruct Hp as [->| ->]; [done|]. eexists [_]. split; [done|].
      apply Forall_singleton. by exists (KOnComplete id).
  - rewrite Hfid. destruct (intervals s !! id) as [iv|]; [|exact Hidle].
    unfold on_message. destruct msg as [msgObj|]; [|exact Hidle].
    cbn zeta.
    destruct (acts_frame fid id (h_actions (onMsg (t s) (prm s) msgObj)) s)
      as (s1 & -> & Hf & Ht & Hd & Hp).
    cbn [mbind result_bind].
    assert (final (match h_throws (onMsg (t s) (prm s) msgObj) with
                   | Some e => Throw (e, s1)
                   | None => throw_in s1 (hasOwnProperty msgObj "close")
                             ≫= λ _, Ok s1
                   end) = s1) as ->; [|apply Hkeep; [congruence|congruence|lia|done]].
    destruct (h_throws _); [done|]. by destruct (hasOwnProperty msgObj "close").
  - rewrite Hfid. destruct (intervals s !! id) as [iv|]; [|exact Hidle].
    unfold on_end.
    destruct (deleteFlow_frame fid (KEndDeleted id) (set_endReceived true s) I)
      as (s2 & -> & Hf & Ht & _ & _ & Hd & Hp).
    cbn [final]. simpl in Hf, Ht, Hd, Hp.
    apply Hkeep; [congruence|congruence|lia|].
    destruct Hp as [->| ->]; [done|]. eexists [_]. split; [done|].
    apply Forall_singleton. by exists (KEndDeleted id).
Qed.


Lemma final_run_cons s e es :
  final (run onMsg s (e :: es))
  = match step onMsg s e with
    | Ok s1 => final (run onMsg s1 es)
    | Throw (_, s1) => s1
    end.
Proof. cbn [run]. by destruct (step onMsg s e) as [s1|[err s1]]. Qed.

(** X7.  Once the flow is created, whatever the handler does (it may call
    the end continuation more than once, and it may throw) and whatever
    happens, up to the end of the events or to the exception that ends the
    run: the flow id and the period of the checks stay as they are, every
    request outstanding is a DELETE of that flow that expects a 204, and
    [done] is called at most once for each event other than a message, and
    for a message at most as often as the handler calls the end
    continuation; so with a handler that calls it at most once for a
    message, [done] is called at most once for each event.  All of this
    holds of the listener of each single event, whatever the handler does
    at that event. *)
Theorem running_run es : ∀ s,
  running s →
  running (final (run onMsg s es))
  ∧ flowId (final (run onMsg s es)) = flowId s
  ∧ timeout (final (run onMsg s es)) = timeout s
  ∧ (doneCalls s ≤ doneCalls (final (run onMsg s es)))%nat
  ∧ (∀ e s1, running s1 →
       running (final (step onMsg s1 e))
       ∧ flowId (final (step onMsg s1 e)) = flowId s1
       ∧ timeout (final (step onMsg s1 e)) = timeout s1
       ∧ (doneCalls s1 ≤ doneCalls (final (step onMsg s1 e))
          ≤ doneCalls s1 + calls onMsg s1 e)%nat)
  ∧ (sparing onMsg →
       (doneCalls (final (run onMsg s es)) ≤ doneCalls s + length es)%nat).
Proof.
  assert (∀ s1 e, sparing onMsg → (calls onMsg s1 e ≤ 1)%nat) as Hcalls.
  { intros s1 e Hsp. destruct e as [| | |id [msgObj|]|]; cbn [calls]; try lia.
    apply Hsp. }
  induction es as [|e es IH]; intros s Hrun.
  { cbn [run final]. split; [done|]. do 3 (split; [done || lia|]).
    split; [|lia]. intros e s1 Hrun1. by apply running_step. }
  rewrite final_run_cons.
  destruct (running_step s e Hrun) as (Hrun1 & Hf1 & Ht1 & Hd1).
  split; [|split; [|split; [|split; [|split]]]].
  5:{ intros e' s1 Hrun'. by apply running_step. }
  all: destruct (step onMsg s e) as [s1|[err s1]]; cbn [final] in *.
  all: try destruct (IH s1 Hrun1) as (Hrun' & Hf' & Ht' & Hd' & _ & Hn').
  all: try done; try congruence; try lia.
  - intros Hsp. specialize (Hn' Hsp). specialize (Hcalls s e Hsp).
    cbn [length]. lia.
  - intros Hsp. specialize (Hcalls s e Hsp). cbn [length]. lia.
Qed.


Lemma ticks_cleared s id period n :
  intervals s !! id = Some (Interval period false) →
  run onMsg s (replicate n (Tick id)) = Ok s.
Proof.
  intros Hiv. induction n as [|n IH]; [done|].
  simpl. rewrite Hiv. by destruct (flowId s).
Qed.

(** X9.  A check that finds the closedown done finalizes, whether the
    count has changed or not and whether a DELETE is still outstanding: it
    calls [done], clears its interval, writes no request and asserts
    nothing; the other intervals are left as they are, and the cleared one
    runs no further check. *)
Theorem tick_after_closedown s fid id period :
  flowId s = Some fid →
  intervals s !! id = Some (Interval period true) →
  doneClosedown s = true →
  ∃ s', step onMsg s (Tick id) = Ok s'
    ∧ doneCalls s' = S (doneCalls s)
    ∧ pending s' = pending s
    ∧ t s' = t s
    ∧ intervals s' !! id = Some (Interval period false)
    ∧ (∀ j, j ≠ id → intervals s' !! j = intervals s !! j)
    ∧ ∀ n, run onMsg s' (replicate n (Tick id)) = Ok s'.
Proof.
  intros Hfid Hiv Hdone. simpl. rewrite Hfid, Hiv.
  unfold checkCompleted. rewrite Hdone. eexists. split; [reflexivity|].
  assert (intervals (clearInterval id s) !! id = Some (Interval period false)) as Hoff
    by by eapply clearInterval_lookup.
  repeat split; try done.
  - intros j Hj. by apply clearInterval_lookup_ne.
  - intros n. by apply (ticks_cleared _ id period).
Qed.

(** X10.  In a test that keeps its flow, checks alone finalize once: with
    no message coming in, the second check at the latest calls [done] and
    clears the interval, and no number of further ticks calls it again. *)
Theorem stall_kept_once s fid id period n :
  flowId s = Some fid →
  intervals s !! id = Some (Interval period true) →
  doneClosedown s = false →
  truthy (keepFlow (prm s)) = true →
  ∃ s', run onMsg s (replicate (2 + n) (Tick id)) = Ok s'
    ∧ doneCalls s' = S (doneCalls s)
    ∧ pending s' = pending s
    ∧ doneClosedown s' = true
    ∧ intervals s' !! id = Some (Interval period false).
Proof.
  intros Hfid Hiv Hdone Hkeep.
  assert (∀ s0, flowId s0 = Some fid → intervals s0 !! id = Some (Interval period true) →
            doneClosedown s0 = false → truthy (keepFlow (prm s0)) = true →
            count (prm s0) = lastCount s0 →
            ∃ s1, step onMsg s0 (Tick id) = Ok s1
              ∧ doneCalls s1 = S (doneCalls s0) ∧ pending s1 = pending s0
              ∧ doneClosedown s1 = true
              ∧ intervals s1 !! id = Some (Interval period false)) as Hstall.
  { intros s0 Hf0 Hi0 Hd0 Hk0 Hc0. simpl. rewrite Hf0, Hi0.
    unfold checkCompleted. rewrite Hd0.
    apply Z.eqb_eq in Hc0 as ->. unfold deleteFlow.
    change (prm (tell ?a (tell ?b (tell ?c s0)))) with (prm s0). rewrite Hk0.
    eexists. split; [reflexivity|]. repeat split.
    cbn. rewrite list_lookup_alter_eq, Hi0. reflexivity. }
  destruct (decide (count (prm s) = lastCount s)) as [Hc|Hc].
  - destruct (Hstall s Hfid Hiv Hdone Hkeep Hc) as (s1 & Hs1 & Hd1 & Hp1 & Hc1 & Hi1).
    exists s1.
    change (replicate (2 + n) (Tick id)) with (Tick id :: replicate (1 + n) (Tick id)).
    rewrite run_cons, Hs1. cbn [mbind result_bind].
    by rewrite (ticks_cleared _ id period).
  - pose proof (tick_records onMsg s fid id period Hfid Hiv Hdone Hc) as Hs1.
    destruct (Hstall (set_lastCount (count (prm s)) s)) as (s2 & Hs2 & Hd2 & Hp2 & Hc2 & Hi2);
      try done.
    exists s2.
    change (replicate (2 + n) (Tick id))
      with (Tick id :: Tick id :: replicate n (Tick id)).
    rewrite run_cons, Hs1. cbn [mbind result_bind].
    rewrite run_cons, Hs2. cbn [mbind result_bind].
    by rewrite (ticks_cleared _ id period).
Qed.

(** X11.  Every connection gets an interval of its own, and the
    finalization that follows an end message clears only the interval of
    the connection the message came on: the next tick of another
    connection's interval calls [done] a second time. *)
Theorem finalized_connection_leaves_others s fid id j period arg :
  flowId s = Some fid → j ≠ id →
  intervals s !! j = Some (Interval period true) →
  ∃ s1 s2, call (KEndDeleted id) arg s = Ok s1
    ∧ intervals s1 !! j = Some (Interval period true)
    ∧ step onMsg s1 (Tick j) = Ok s2
    ∧ doneCalls s2 = S (S (doneCalls s)).
Proof.
  intros Hfid Hj Hiv. eexists _, _. split; [reflexivity|].
  assert (intervals (done (clearInterval id (set_doneClosedown true s))) !! j
          = Some (Interval period true)) as Hon.
  { simpl. by rewrite list_lookup_alter_ne. }
  split; [done|]. cbn [step]. rewrite Hon.
  change (flowId (done ?x)) with (flowId s). rewrite Hfid.
  unfold checkCompleted. split; reflexivity.
Qed.

End Run.

Lemma running_stalled : running stalled.
Proof. exists (JStr "91ad451.f6e52b8"). split; [reflexivity|apply Forall_nil_2]. Qed.

Lemma sparing_counting : sparing counting.
Proof.
  intros t p msgObj. unfold counting.
  destruct (hasOwnProperty msgObj "close") as [[]|]; simpl; lia.
Qed.

Lemma running_run_witness :
  let s' := final (run counting stalled
                     [Tick 0; Message 0 (Some (JObj [("close", JBool true)]));
                      deleted; Message 0 (Some JNull); Tick 0]) in
  flowId s' = Some (JStr "91ad451.f6e52b8")
  ∧ timeout s' = JNum 1000
  ∧ (doneCalls s' ≤ 5)%nat.
Proof.
  intros s'.
  destruct (running_run counting
              [Tick 0; Message 0 (Some (JObj [("close", JBool true)]));
               deleted; Message 0 (Some JNull); Tick 0] stalled running_stalled)
    as (_ & Hflow & Htimeout & _ & _ & Hdone).
  split; [exact Hflow|]. split; [exact Htimeout|].
  exact (Hdone sparing_counting).
Defined.

(** With a handler that calls the end continuation twice, a test that
    keeps its flow calls [done] twice for one message. *)
Example hasty_done_twice :
  ∃ s', step hasty kept (Message 0 (Some (JObj [("close", JBool true)]))) = Ok s'
    ∧ doneCalls s' = 2%nat.
Proof. eexists. split; [vm_compute; reflexivity|reflexivity]. Qed.


Lemma tick_after_closedown_witness :
  ∃ s', step counting closing (Tick 0) = Ok s'
    ∧ doneCalls s' = 1%nat
    ∧ pending s' = pending closing
    ∧ run counting s' [Tick 0; Tick 0] = Ok s'.
Proof.
  destruct (tick_after_closedown counting closing (JStr "91ad451.f6e52b8") 0 (JNum 1000)
              eq_refl eq_refl eq_refl)
    as (s' & Hs' & Hd & Hp & _ & _ & _ & Hticks).
  exists s'. split; [exact Hs'|]. split; [exact Hd|]. split; [exact Hp|].
  exact (Hticks 2%nat).
Defined.

Lemma stall_kept_once_witness :
  ∃ s', run counting kept [Tick 0; Tick 0; Tick 0; Tick 0; Tick 0] = Ok s'
    ∧ doneCalls s' = 1%nat.
Proof.
  destruct (stall_kept_once counting kept (JStr "91ad451.f6e52b8") 0 (JNum 1000) 3
              eq_refl eq_refl eq_refl eq_refl)
    as (s' & Hs' & Hd & _).
  exists s'. split; [exact Hs'|exact Hd].
Defined.

Lemma finalized_connection_leaves_others_witness :
  ∃ s1 s2, call (KEndDeleted 0) JUndefined two_connections = Ok s1
    ∧ step counting s1 (Tick 1) = Ok s2
    ∧ doneCalls s2 = 2%nat.
Proof.
  destruct (finalized_connection_leaves_others counting two_connections
              (JStr "91ad451.f6e52b8") 0 1 (JNum 1000) JUndefined eq_refl)
    as (s1 & s2 & Hs1 & _ & Hs2 & Hd); [lia|reflexivity|].
  exists s1, s2. split; [exact Hs1|]. split; [exact Hs2|exact Hd].
Defined.


(** ** [checkGrain]: the log, and what is no object *)

Section GrainClass.
Variable grain : Type.
Variable Grain : jsval → jsval → jsval → jsval → jsval → jsval → jsval → grain.
Variables ptpSync ptpOrigin flow_id source_id duration : grain → jsval.
Variable coerced_gt0 : jsval → result bool.

(** X14.  [checkGrain] only adds to the log: what it asserts and returns
    does not depend on what was asserted before, and a call that returns
    has added seven assertions and no comment. *)
Theorem checkGrain_appends (t : tape) (obj : jsval) :
  checkGrain grain Grain ptpSync ptpOrigin flow_id source_id duration coerced_gt0 t obj
  = match checkGrain grain Grain ptpSync ptpOrigin flow_id source_id duration
            coerced_gt0 [] obj with
    | Ok (asserted, g) => Ok (t ++ asserted, g)
    | Throw e => Throw e
    end
  ∧ ∀ asserted g,
      checkGrain grain Grain ptpSync ptpOrigin flow_id source_id duration
        coerced_gt0 [] obj = Ok (asserted, g) →
      length asserted = 7%nat ∧ Forall (λ x, ∃ ok msg, x = Assert ok msg) asserted.
Proof.
  unfold checkGrain, reconstruct.
  destruct (get obj "ptpSyncTimestamp") as [sync|] eqn:Hsync;
    [|by destruct obj].
  assert (∀ k, ∃ v, get obj k = Ok v) as Hget.
  { intros k. destruct obj; try discriminate Hsync; by eexists. }
  assert ((∀ k, ∃ v, own_or_0 obj k = Ok v)
          ∨ (∀ k, own_or_0 obj k = Throw "TypeError")) as Hown.
  { unfold own_or_0.
    destruct obj as [| | | | | |fields]; try discriminate Hsync;
      cbn [hasOwnProperty]; try (left; intros k; by eexists).
    destruct (assoc "hasOwnProperty" fields); [by right|left].
    intros k. cbn [mbind result_bind get]. destruct (bool_decide _); by eexists. }
  destruct (Hget "ptpOriginTimestamp") as [origin ->].
  destruct (Hget "timecode") as [timecode ->].
  destruct (Hget "flow_id") as [fid ->].
  destruct (Hget "source_id") as [sid ->].
  destruct (Hget "duration") as [dur ->].
  destruct Hown as [Hown|Hown].
  2:{ rewrite (Hown "payloadCount"). cbn [mbind result_bind].
      split; [done|]. by intros. }
  destruct (Hown "payloadCount") as [payloadCount ->].
  destruct (Hown "payloadSize") as [payloadSize ->].
  cbn [mbind result_bind].
  destruct (gt0 coerced_gt0 payloadSize) as [positive|]; cbn [mbind result_bind].
  - split; [by rewrite <-!(assoc_L (++))|].
    intros asserted g [= <- <-]. split; [done|].
    repeat (apply Forall_cons; split; [by eexists _, _|]). apply Forall_nil_2.
  - split; [done|]. by intros.
Qed.

(** X15.  A message that is a number, a string, a boolean or an array is
    checked without an exception: it has no payload count and no payload
    size, so the first two assertions fail, and the grain is made of
    [undefined] properties. *)
Theorem checkGrain_not_object (t : tape) (obj : jsval) :
  match obj with
  | JBool _ | JNum _ | JStr _ | JArr _ => True
  | _ => False
  end →
  let g := Grain JNull JUndefined JUndefined JUndefined JUndefined JUndefined
             JUndefined in
  checkGrain grain Grain ptpSync ptpOrigin flow_id source_id duration coerced_gt0 t obj
  = Ok (t ++ [Assert false "has single payload";
              Assert false "has payload contents";
              Assert (truthy (ptpSync g)) "has valid PTP sync timestamp";
              Assert (truthy (ptpOrigin g)) "has valid PTP origin timestamp";
              Assert (truthy (flow_id g)) "has valid flow id";
              Assert (truthy (source_id g)) "has valid source id";
              Assert (truthy (duration g)) "has valid duration"], g).
Proof.
  intros Hobj g. unfold checkGrain, reconstruct, own_or_0.
  destruct obj; try done; cbn; by rewrite <-!(assoc_L (++)).
Qed.

End GrainClass.

Lemma checkGrain_appends_witness :
  ∃ asserted g,
    checkGrain plain_grain plainGrain pg_ptpSync pg_ptpOrigin pg_flow_id
      pg_source_id pg_duration coerced_NaN [] (JObj grain_fields) = Ok (asserted, g)
    ∧ length asserted = 7%nat
    ∧ checkGrain plain_grain plainGrain pg_ptpSync pg_ptpOrigin pg_flow_id
        pg_source_id pg_duration coerced_NaN [Comment "first grain"]
        (JObj grain_fields) = Ok (Comment "first grain" :: asserted, g).
Proof.
  destruct (checkGrain_appends plain_grain plainGrain pg_ptpSync pg_ptpOrigin
              pg_flow_id pg_source_id pg_duration coerced_NaN
              [Comment "first grain"] (JObj grain_fields)) as [Happ Hseven].
  eexists _, _. split; [reflexivity|]. split.
  - apply (Hseven _ (plainGrain JNull (JStr "1447:0") (JStr "1447:0") JUndefined
                       (JStr "e7f9a2c0") (JStr "b1c4d8e6") (JArr [JNum 1; JNum 25]))).
    reflexivity.
  - exact Happ.
Defined.

Lemma checkGrain_not_object_witness :
  ∃ t g,
    checkGrain plain_grain plainGrain pg_ptpSync pg_ptpOrigin pg_flow_id
      pg_source_id pg_duration coerced_NaN [] (JArr [JObj grain_fields]) = Ok (t, g)
    ∧ forallb passed t = false.
Proof.
  eexists _, _. split.
  - apply (checkGrain_not_object plain_grain plainGrain pg_ptpSync pg_ptpOrigin
             pg_flow_id pg_source_id pg_duration coerced_NaN []
             (JArr [JObj grain_fields])).
    exact I.
  - reflexivity.
Defined.


(** ** [rimraf], again *)

Open Scope nat_scope.

Lemma dirname_ne p : p ≠ [] → dirname p ≠ p.
Proof.
  intros Hp Heq. apply (f_equal length) in Heq. unfold dirname in Heq.
  rewrite length_take in Heq. destruct p; [done|]. simpl in Heq. lia.
Qed.

Lemma join_ne dir name : join dir name ≠ dir.
Proof.
  intros Heq. apply (f_equal length) in Heq. unfold join in Heq.
  rewrite length_app in Heq. simpl in Heq. lia.
Qed.

Lemma ne_join dir name : dir ≠ join dir name.
Proof. intros Heq. by apply (join_ne dir name). Qed.

(** A new entry in a directory, or a file written over a file, keeps the
    tree well formed. *)
Lemma wf_insert fs p k :
  wf fs → p = [] ∨ fs !! dirname p = Some Dir →
  k = Dir ∨ fs !! p ≠ Some Dir →
  wf (<[p := k]> fs).
Proof.
  intros Hwf Hparent Hkind q x Hq.
  destruct (decide (q = [])) as [->|Hnil]; [by left|right].
  assert (fs !! dirname q = Some Dir) as Hdq.
  { destruct (decide (q = p)) as [->|Hne]; [by destruct Hparent|].
    rewrite lookup_insert_ne in Hq by done. by destruct (Hwf _ _ Hq). }
  destruct (decide (dirname q = p)) as [Hqp|Hqp].
  - rewrite Hqp in *. rewrite lookup_insert_eq. by destruct Hkind as [->|].
  - by rewrite lookup_insert_ne.
Qed.

Lemma absent_below fs p q :
  wf fs → fs !! p = None → p `prefix_of` q → fs !! q = None.
Proof.
  intros Hwf Hp [k ->]. destruct (fs !! (p ++ k)) as [x|] eqn:Hq; [|done].
  assert (is_Some (fs !! p)) as [? ?] by (apply (wf_ancestor _ _ k); eauto).
  congruence.
Qed.

Lemma without_absent fs p : wf fs → fs !! p = None → without p fs = fs.
Proof.
  intros Hwf Hp. apply map_eq. intros q. rewrite lookup_without.
  case_decide; [|done]. symmetry. by apply (absent_below _ p).
Qed.

(** With fuel for the longest path, [rimraf] ends on every path that is
    not a regular file. *)
Lemma rimraf_enough fuel dir fs :
  wf fs → fs !! dir ≠ Some File → depth fs ≤ fuel →
  rimraf fuel dir fs = Some (Ok (without dir fs)).
Proof.
  intros Hwf Hdir Hfuel. destruct (fs !! dir) as [[]|] eqn:Hk; [done| |].
  - apply rimraf_removes; [done|done|].
    apply (shallow_le (depth fs)); [lia|apply shallow_depth].
  - destruct fuel as [|fuel]; [unfold depth in Hfuel; lia|].
    rewrite without_absent by done. simpl. unfold exists_.
    rewrite bool_decide_eq_false_2; [done|]. rewrite Hk. by intros [? ?].
Qed.

Lemma depth_without dir fs : depth (without dir fs) ≤ depth fs.
Proof.
  unfold depth. apply le_n_S. apply list_max_le. apply List.Forall_forall.
  intros n Hn. apply list_elem_of_In in Hn.
  apply list_elem_of_fmap in Hn as (q & -> & Hq).
  apply list_elem_of_fmap in Hq as ([q' k] & -> & Hq). simpl.
  apply elem_of_map_to_list in Hq.
  assert (is_Some (fs !! q')) as Hs.
  { apply (lookup_without_is_Some dir). by rewrite Hq. }
  pose proof (shallow_depth fs q' Hs) as Hlt. unfold depth in Hlt. lia.
Qed.

(** X17.  [rimraf] can be run again: on a directory, or on a path with
    nothing at it, a second run succeeds and changes nothing. *)
Theorem rimraf_idempotent fuel dir fs :
  wf fs → fs !! dir ≠ Some File → depth fs ≤ fuel →
  ∃ fs', rimraf fuel dir fs = Some (Ok fs')
    ∧ rimraf fuel dir fs' = Some (Ok fs').
Proof.
  intros Hwf Hdir Hfuel. exists (without dir fs).
  split; [by apply rimraf_enough|].
  assert (without dir fs !! dir = None) as Hgone.
  { rewrite lookup_without. by rewrite decide_True. }
  rewrite rimraf_enough.
  - f_equal. f_equal. apply without_absent; [by apply wf_without|done].
  - by apply wf_without.
  - by rewrite Hgone.
  - pose proof (depth_without dir fs). lia.
Qed.

(** X18.  [rimraf] only removes: the tree it leaves is well formed, every
    entry left was there before, and the directory that held the removed
    one lists the entries it listed before but that one. *)
Theorem rimraf_keeps_rest fuel dir fs :
  wf fs → fs !! dir ≠ Some File → depth fs ≤ fuel →
  ∃ fs', rimraf fuel dir fs = Some (Ok fs')
    ∧ wf fs' ∧ fs' ⊆ fs
    ∧ (∀ name, dir ≠ [] →
         name ∈ entries (dirname dir) fs' ↔
         name ∈ entries (dirname dir) fs ∧ join (dirname dir) name ≠ dir).
Proof.
  intros Hwf Hdir Hfuel. exists (without dir fs).
  split; [by apply rimraf_enough|]. split; [by apply wf_without|].
  split; [apply map_filter_subseteq|].
  intros name Hne. rewrite !elem_of_entries, lookup_without.
  case_decide as Hpre.
  - split; [by intros [? ?]|]. intros [_ Hnot]. destruct Hnot.
    symmetry. apply prefix_length_eq; [done|].
    unfold join, dirname. rewrite length_app, length_take.
    destruct dir; [done|]. simpl. lia.
  - split; [|by intros [? _]]. intros Hs. split; [done|].
    intros Heq. destruct Hpre. by rewrite Heq.
Qed.

(** On a regular file [rimraf] fails with [ENOTDIR]: [exists] finds
    it, and [readdir] refuses it. *)
Theorem rimraf_file fuel dir fs :
  fs !! dir = Some File → rimraf (S fuel) dir fs = Some (Throw "ENOTDIR").
Proof.
  intros Hdir. simpl. unfold exists_, readdir. rewrite Hdir.
  by rewrite bool_decide_eq_true_2 by eauto.
Qed.

Lemma wf_staged : wf staged.
Proof. apply (bool_decide_unpack (wf staged)). vm_compute. exact I. Qed.

Lemma wf_unstaged : wf unstaged.
Proof. apply (bool_decide_unpack (wf unstaged)). vm_compute. exact I. Qed.

Lemma rimraf_idempotent_witness :
  ∃ fs', rimraf 5 ["test"; "tmp"] staged = Some (Ok fs')
    ∧ rimraf 5 ["test"; "tmp"] fs' = Some (Ok fs').
Proof.
  apply (rimraf_idempotent 5 ["test"; "tmp"] staged).
  - exact wf_staged.
  - vm_compute. discriminate.
  - vm_compute. lia.
Defined.

Lemma rimraf_keeps_rest_witness :
  ∃ fs', rimraf 5 ["test"; "tmp"] staged = Some (Ok fs')
    ∧ wf fs' ∧ fs' ⊆ staged.
Proof.
  destruct (rimraf_keeps_rest 5 ["test"; "tmp"] staged)
    as (fs' & Hfs' & Hwf & Hsub & _).
  - exact wf_staged.
  - vm_compute. discriminate.
  - vm_compute. lia.
  - exists fs'. split; [exact Hfs'|]. split; [exact Hwf|exact Hsub].
Defined.

Lemma rimraf_file_witness :
  rimraf 1 ["test"; "tmp"] blocked = Some (Throw "ENOTDIR").
Proof. apply (rimraf_file 0 ["test"; "tmp"] blocked). reflexivity. Defined.

(** ** [download] and [delTmp] *)

Example plain_names :
  plain "tone.wav" = true ∧ plain "0001.v210" = true
  ∧ plain EmptyString = false ∧ plain "." = false ∧ plain ".." = false
  ∧ plain "frames/0001.v210" = false ∧ plain "../testUtil.js" = false
  ∧ plain "/" = false.
Proof. by repeat split. Qed.

Section Staging.
Variable __dirname : path.
Variable getUri : string → result string.

(** A download into a staging directory that is there or can be made, to a
    file name that no directory holds. *)
Lemma download_ok uri file body fs :
  fs !! __dirname = Some Dir →
  fs !! join __dirname "tmp" ≠ Some File →
  fs !! join (join __dirname "tmp") file ≠ Some Dir →
  getUri uri = Ok body →
  download __dirname getUri None uri file fs
  = Ok (<[join (join __dirname "tmp") file := File]>
          (<[join __dirname "tmp" := Dir]> fs)).
Proof.
  intros Hdir Htmp Hfile Hget. unfold download, mkdir, exists_.
  assert (∀ fs0 : gmap path kind,
            fs0 !! join __dirname "tmp" = Some Dir →
            fs0 !! join (join __dirname "tmp") file ≠ Some Dir →
            write_file (join (join __dirname "tmp") file) fs0
            = Ok (<[join (join __dirname "tmp") file := File]> fs0)) as Hwrite.
  { intros fs0 Ht Hf. unfold write_file. rewrite dirname_join, Ht.
    by destruct (fs0 !! join (join __dirname "tmp") file) as [[]|]. }
  destruct (fs !! join __dirname "tmp") as [[]|] eqn:Hk; [done| |].
  - rewrite bool_decide_eq_true_2 by eauto. simpl. rewrite Hget. simpl.
    rewrite (insert_id fs (join __dirname "tmp") Dir) by done.
    rewrite Hwrite; [done|done|done].
  - rewrite bool_decide_eq_false_2 by (by intros [? ?]).
    rewrite dirname_join, Hdir. simpl. rewrite Hget. simpl.
    apply Hwrite; [by rewrite lookup_insert_eq|].
    by rewrite lookup_insert_ne by apply ne_join.
Qed.

Lemma wf_downloaded file fs :
  wf fs →
  fs !! __dirname = Some Dir →
  fs !! join (join __dirname "tmp") file ≠ Some Dir →
  wf (<[join (join __dirname "tmp") file := File]>
        (<[join __dirname "tmp" := Dir]> fs)).
Proof.
  intros Hwf Hdir Hfile. apply wf_insert.
  - apply wf_insert; [done| |by left]. right. by rewrite dirname_join.
  - right. rewrite dirname_join. by rewrite lookup_insert_eq.
  - right. by rewrite lookup_insert_ne by apply ne_join.
Qed.

(** X19.  A download to a plain file name that succeeds leaves the file
    in the staging directory and every other path as it was, in a
    well-formed tree: the staging directory is made if it was not there,
    and a file of that name is written over. *)
Theorem download_stores uri file body fs :
  plain file = true →
  wf fs →
  fs !! __dirname = Some Dir →
  fs !! join __dirname "tmp" ≠ Some File →
  fs !! join (join __dirname "tmp") file ≠ Some Dir →
  getUri uri = Ok body →
  ∃ fs', download __dirname getUri None uri file fs = Ok fs'
    ∧ fs' !! join (join __dirname "tmp") file = Some File
    ∧ fs' !! join __dirname "tmp" = Some Dir
    ∧ (∀ q, q ≠ join (join __dirname "tmp") file → q ≠ join __dirname "tmp" →
         fs' !! q = fs !! q)
    ∧ wf fs'.
Proof.
  intros _ Hwf Hdir Htmp Hfile Hget. eexists. split; [by eapply download_ok|].
  split; [by rewrite lookup_insert_eq|].
  split.
  { rewrite lookup_insert_ne by apply join_ne.
    by rewrite lookup_insert_eq. }
  split; [intros q H1 H2; by rewrite !lookup_insert_ne|].
  by apply wf_downloaded.
Qed.

(** X20.  A download to a plain file name can be repeated: the second
    one succeeds and leaves the tree the first one left. *)
Theorem download_twice uri file body fs :
  plain file = true →
  fs !! __dirname = Some Dir →
  fs !! join __dirname "tmp" ≠ Some File →
  fs !! join (join __dirname "tmp") file ≠ Some Dir →
  getUri uri = Ok body →
  ∃ fs', download __dirname getUri None uri file fs = Ok fs'
    ∧ download __dirname getUri None uri file fs' = Ok fs'.
Proof.
  intros _ Hdir Htmp Hfile Hget. eexists. split; [by eapply download_ok|].
  erewrite download_ok; [|  | | |done].
  - f_equal. apply map_eq. intros q.
    destruct (decide (q = join (join __dirname "tmp") file)) as [->|H1].
    { by rewrite !lookup_insert_eq. }
    rewrite !(lookup_insert_ne _ (join (join __dirname "tmp") file)) by done.
    destruct (decide (q = join __dirname "tmp")) as [->|H2].
    { by rewrite !lookup_insert_eq. }
    by rewrite !lookup_insert_ne.
  - rewrite !lookup_insert_ne; [done| |].
    + apply join_ne.
    + intros Heq. apply (f_equal length) in Heq. unfold join in Heq.
      rewrite !length_app in Heq. simpl in Heq. lia.
  - rewrite lookup_insert_ne by apply join_ne.
    by rewrite lookup_insert_eq.
  - by rewrite lookup_insert_eq.
Qed.

(** X21.  [delTmp] undoes a download to a plain file name: after a
    download that succeeded it succeeds too, and leaves the tree without
    the staging directory, which is the tree as it was before the download
    when the directory was not there then. *)
Theorem download_delTmp uri file body fs fuel :
  let fs' := <[join (join __dirname "tmp") file := File]>
               (<[join __dirname "tmp" := Dir]> fs) in
  plain file = true →
  wf fs →
  fs !! __dirname = Some Dir →
  fs !! join __dirname "tmp" ≠ Some File →
  fs !! join (join __dirname "tmp") file ≠ Some Dir →
  getUri uri = Ok body →
  depth fs' ≤ fuel →
  download __dirname getUri None uri file fs = Ok fs'
  ∧ delTmp __dirname fuel fs' = Some (Ok (without (join __dirname "tmp") fs))
  ∧ (fs !! join __dirname "tmp" = None →
     delTmp __dirname fuel fs' = Some (Ok fs)).
Proof.
  intros fs' _ Hwf Hdir Htmp Hfile Hget Hfuel.
  assert (delTmp __dirname fuel fs'
          = Some (Ok (without (join __dirname "tmp") fs))) as Hdel.
  { unfold delTmp. rewrite rimraf_enough; [| | |done].
    - f_equal. f_equal. apply map_eq. intros q. unfold fs'.
      rewrite !lookup_without.
      case_decide as Hpre; [done|].
      rewrite !lookup_insert_ne; [done| |].
      + intros <-. by destruct Hpre.
      + intros <-. destruct Hpre. by exists [file].
    - by apply wf_downloaded.
    - unfold fs'. rewrite lookup_insert_ne by apply join_ne.
      by rewrite lookup_insert_eq. }
  split; [by eapply download_ok|]. split; [done|].
  intros Habsent. by rewrite Hdel, without_absent.
Qed.

(** X22.  With a regular file where the staging directory goes, the
    [EEXIST] of [mkdir] is passed over all the same, a download to a plain
    file name then fails with [ENOTDIR] when the file is written, and
    [delTmp] fails with [ENOTDIR] too. *)
Theorem staging_is_a_file uri file body fs fuel :
  plain file = true →
  fs !! join __dirname "tmp" = Some File →
  getUri uri = Ok body →
  download __dirname getUri None uri file fs = Throw "ENOTDIR"
  ∧ delTmp __dirname (S fuel) fs = Some (Throw "ENOTDIR").
Proof.
  intros _ Htmp Hget. split.
  - unfold download, mkdir, exists_. rewrite bool_decide_eq_true_2 by eauto.
    simpl. rewrite Hget. simpl. unfold write_file. by rewrite dirname_join, Htmp.
  - unfold delTmp. simpl. unfold exists_, readdir. rewrite Htmp.
    by rewrite bool_decide_eq_true_2 by eauto.
Qed.

(** X23.  A download to a name that a directory of the staging directory
    holds fails with [EISDIR]. *)
Theorem download_onto_directory uri file body fs :
  fs !! join __dirname "tmp" = Some Dir →
  fs !! join (join __dirname "tmp") file = Some Dir →
  getUri uri = Ok body →
  download __dirname getUri None uri file fs = Throw "EISDIR".
Proof.
  intros Htmp Hfile Hget. unfold download, mkdir, exists_.
  rewrite bool_decide_eq_true_2 by eauto. simpl. rewrite Hget. simpl.
  unfold write_file. by rewrite dirname_join, Htmp, Hfile.
Qed.

(** X24.  When [getUri] fails, [download] fails with its error, whether
    the staging directory was there or has just been made. *)
Theorem download_getUri_fails fault uri file e fs :
  (∀ code, mkdir fault (join __dirname "tmp") fs = Throw code → code = "EEXIST") →
  getUri uri = Throw e →
  download __dirname getUri fault uri file fs = Throw e.
Proof.
  intros Hmk Hget. unfold download.
  destruct (mkdir fault (join __dirname "tmp") fs) as [fs1|code] eqn:Hm.
  - simpl. by rewrite Hget.
  - rewrite (Hmk code eq_refl). simpl. by rewrite Hget.
Qed.
End Staging.

Lemma download_stores_witness :
  ∃ fs', download ["test"] (λ _, Ok "RIFF") None "http://localhost/tone.wav"
           "tone.wav" unstaged = Ok fs'
    ∧ fs' !! ["test"; "tmp"; "tone.wav"] = Some File
    ∧ fs' !! ["test"; "testUtil.js"] = Some File
    ∧ wf fs'.
Proof.
  destruct (download_stores ["test"] (λ _, Ok "RIFF") "http://localhost/tone.wav"
              "tone.wav" "RIFF" unstaged)
    as (fs' & Hfs' & Hfile & _ & Hrest & Hwf).
  - reflexivity.
  - exact wf_unstaged.
  - vm_compute. reflexivity.
  - vm_compute. discriminate.
  - vm_compute. discriminate.
  - reflexivity.
  - exists fs'. split; [exact Hfs'|]. split; [exact Hfile|]. split; [|exact Hwf].
    rewrite Hrest; [vm_compute; reflexivity|discriminate|discriminate].
Defined.

Lemma download_twice_witness :
  ∃ fs', download ["test"] (λ _, Ok "RIFF") None "http://localhost/tone.wav"
           "tone.wav" staged = Ok fs'
    ∧ download ["test"] (λ _, Ok "RIFF") None "http://localhost/tone.wav"
        "tone.wav" fs' = Ok fs'.
Proof.
  apply (download_twice ["test"] (λ _, Ok "RIFF") "http://localhost/tone.wav"
           "tone.wav" "RIFF" staged).
  - reflexivity.
  - vm_compute. reflexivity.
  - vm_compute. discriminate.
  - vm_compute. discriminate.
  - reflexivity.
Defined.

Lemma download_delTmp_witness :
  ∃ fs', download ["test"] (λ _, Ok "RIFF") None "http://localhost/tone.wav"
           "tone.wav" unstaged = Ok fs'
    ∧ delTmp ["test"] 4 fs' = Some (Ok unstaged).
Proof.
  destruct (download_delTmp ["test"] (λ _, Ok "RIFF") "http://localhost/tone.wav"
              "tone.wav" "RIFF" unstaged 4)
    as (Hfs' & _ & Hback).
  - reflexivity.
  - exact wf_unstaged.
  - vm_compute. reflexivity.
  - vm_compute. discriminate.
  - vm_compute. discriminate.
  - reflexivity.
  - vm_compute. lia.
  - eexists. split; [exact Hfs'|]. apply Hback. vm_compute. reflexivity.
Defined.

Lemma staging_is_a_file_witness :
  download ["test"] (λ _, Ok "RIFF") None "http://localhost/tone.wav" "tone.wav"
    blocked = Throw "ENOTDIR"
  ∧ delTmp ["test"] 1 blocked = Some (Throw "ENOTDIR").
Proof.
  apply (staging_is_a_file ["test"] (λ _, Ok "RIFF") "http://localhost/tone.wav"
           "tone.wav" "RIFF" blocked 0); reflexivity.
Defined.

Lemma download_onto_directory_witness :
  download ["test"] (λ _, Ok "RIFF") None "http://localhost/frames" "frames" staged
  = Throw "EISDIR".
Proof.
  apply (download_onto_directory ["test"] (λ _, Ok "RIFF") "http://localhost/frames"
           "frames" "RIFF" staged); reflexivity.
Defined.

Lemma download_getUri_fails_witness :
  download ["test"] (λ _, Throw "ENOTFOUND") None "http://nowhere/tone.wav"
    "tone.wav" staged = Throw "ENOTFOUND".
Proof.
  apply (download_getUri_fails ["test"] (λ _, Throw "ENOTFOUND") None
           "http://nowhere/tone.wav" "tone.wav" "ENOTFOUND" staged).
  - intros code Hcode. vm_compute in Hcode. by injection Hcode.
  - reflexivity.
Defined.
